(** * newrelic-diagnostics-cli: results, artifacts, uploads and three tasks

    A shallow embedding of the Go sources of the diagnostics CLI:
    - package [tasks] (the shared [Result] data model),
    - package [env]    ([BaseEnvInitSystem]),
    - package [config] ([BaseConfigAppName], [DotNetConfigAgent]),
    - package [output] ([ProcessFilesChannel], [HandleIncludeFlag],
      [WriteLineResults]),
    - package [attach] (upload of files, attachment endpoint).

    Go strings are byte sequences: they are [string]s of 8-bit [ascii].
    Go maps are [gmap]s; a lookup of an absent key yields the zero value. *)

From Stdlib Require Import ZArith Lia Ascii String.
From stdpp Require Import base option list strings gmap pretty.

Local Open Scope string_scope.
Local Open Scope list_scope.

(** ** Package [tasks]: the data shared by every task *)

Module Tasks.

(** Modelled from the spec: [tasks.Status] is declared outside these
    sources; the six statuses of the data model. *)
Inductive Status := None_ | Success | Warning | Failure | Error | Info.

#[export] Instance Status_eq_dec : EqDecision Status.
Proof. solve_decision. Defined.

(** [AppNameInfo] of [appname.go]. *)
Record AppNameInfo := { Name : string; FilePath : string }.

#[export] Instance AppNameInfo_eq_dec : EqDecision AppNameInfo.
Proof. solve_decision. Defined.

(** Modelled from the spec: [tasks.ProcIDSysProps] is declared outside
    these sources; only the field [getAppNameFromSysProps] reads. *)
Record ProcIDSysProps := { SysPropsKeyToVal : gmap string string }.

(** Modelled from the spec: [tasks.ValidateBlob] is declared outside these
    sources; a parsed configuration tree with the fields the tasks read. *)
#[warnings="-register-all"]
Inductive ValidateBlob :=
  Blob (Key : string) (Path : string) (RawValue : string)
       (Children : list ValidateBlob).

Definition blobKey (b : ValidateBlob) : string :=
  match b with Blob k _ _ _ => k end.
Definition blobPath (b : ValidateBlob) : string :=
  match b with Blob _ p _ _ => p end.
Definition blobChildren (b : ValidateBlob) : list ValidateBlob :=
  match b with Blob _ _ _ c => c end.

(** The zero value [tasks.ValidateBlob{}]. *)
Definition emptyBlob : ValidateBlob := Blob "" "" "" [].

(** Modelled from the spec: [config.ConfigElement] and
    [config.ValidateElement] are declared outside these sources; the fields
    the tasks read. *)
Record ConfigElement := { FileName : string; ConfigFilePath : string }.
Record ValidateElement :=
  { Config : ConfigElement; ParsedResult : ValidateBlob }.

(** [Result.Payload] is an [interface{}]: a value tagged with its dynamic
    type.  A type assertion succeeds on the matching constructor only. *)
Inductive Payload :=
  | PNil
  | PString (s : string)
  | PMapStringString (m : gmap string string)
  | PMapStringBool (m : gmap string bool)
  | PSysProps (l : list ProcIDSysProps)
  | PValidateElements (l : list ValidateElement)
  | PAppNameInfos (l : list AppNameInfo)
  | POther (dynamicType : string).

(** [payload == nil] *)
Definition isNil (p : Payload) : bool :=
  match p with PNil => true | _ => false end.

(** Modelled from the spec: [tasks.Result] is declared outside these
    sources; Status, Summary, URL and Payload as the data model lists them
    (the [FilesToCopy] field lives with the collector). *)
Record Result :=
  { Status_ : Status; Summary : string; URL : string; Payload_ : Payload }.

(** The zero value [tasks.Result{}], which a map lookup of an absent key
    yields. *)
Definition zeroResult : Result :=
  {| Status_ := None_; Summary := ""; URL := ""; Payload_ := PNil |}.

(** [upstream[key]] *)
Definition upstreamAt (upstream : gmap string Result) (key : string) : Result :=
  default zeroResult (upstream !! key).

End Tasks.

(** ** Go library functions on strings *)

Module GoStrings.

(** [strings.HasPrefix] *)
Fixpoint HasPrefix (s p : string) : bool :=
  match p, s with
  | "", _ => true
  | String c p', String d s' => if Ascii.eqb c d then HasPrefix s' p' else false
  | String _ _, "" => false
  end.

(** [strings.Contains] *)
Fixpoint Contains (s substr : string) : bool :=
  HasPrefix s substr ||
  match s with
  | "" => false
  | String _ s' => Contains s' substr
  end.

End GoStrings.

(** ** The fragment of Go [regexp] the tasks use

    The matcher reads bytes where Go reads runes.  The literals of the two
    patterns are ASCII, and an ASCII byte is never part of a longer rune, so
    both find the same matches. *)

Module Regexp.

Inductive regex :=
  | Eps
  | Lit (c : ascii)
  | AnyCharNotNL                (* [.] without the [s] flag *)
  | Cat (a b : regex)
  | Star (a : regex)
  | Capture (a : regex)         (* [( )] *)
  | EndText.                    (* [$] without the [m] flag *)

(** A literal string as a regex. *)
Fixpoint Lits (s : string) : regex :=
  match s with
  | "" => Eps
  | String c s' => Cat (Lit c) (Lits s')
  end.

(** The iterations of a star.  [step] runs the starred regex once; an
    iteration that consumes nothing is not repeated, so at most
    [String.length s] iterations are ever needed. *)
Fixpoint starLoop (step : string -> (string -> bool) -> bool)
    (k : string -> bool) (fuel : nat) (s : string) {struct fuel} : bool :=
  k s ||
  match fuel with
  | O => false
  | S fuel' =>
      step s (fun s' =>
        (String.length s' <? String.length s)%nat && starLoop step k fuel' s')
  end.

(** [run r s k]: some match of [r] at the start of [s] leaves a rest that
    the continuation [k] accepts. *)
Fixpoint run (r : regex) (s : string) (k : string -> bool) {struct r} : bool :=
  match r with
  | Eps => k s
  | Lit c =>
      match s with
      | String d s' => Ascii.eqb c d && k s'
      | "" => false
      end
  | AnyCharNotNL =>
      match s with
      | String d s' => negb (Ascii.eqb d "010") && k s'
      | "" => false
      end
  | Cat a b => run a s (fun s' => run b s' k)
  | Capture a => run a s k
  | EndText => match s with "" => k "" | String _ _ => false end
  | Star a => starLoop (run a) k (String.length s) s
  end.

(** [Regexp.Match]: the regex matches somewhere in [s]. *)
Fixpoint Match (r : regex) (s : string) : bool :=
  run r s (fun _ => true) ||
  match s with
  | "" => false
  | String _ s' => Match r s'
  end.

End Regexp.

(** ** Package [env]: [BaseEnvInitSystem] *)

Module InitSystem.
Import Tasks GoStrings Regexp.

(** The task with its injected collaborators; a Go [error] is carried by
    its message. *)
Record BaseEnvInitSystem :=
  { runtimeOs : string;
    evalSymlink : string -> string + string }.

(** [regexp.MustCompile(`.*(\/systemd$)`)] *)
Definition regexSysD : regex :=
  Cat (Star AnyCharNotNL) (Capture (Cat (Lits "/systemd") EndText)).

(** [regexp.MustCompile(`.*(upstart$)`)] *)
Definition regexUpstart : regex :=
  Cat (Star AnyCharNotNL) (Capture (Cat (Lits "upstart") EndText)).

Definition parseInitSystem (initPath : string) : string :=
  if String.eqb initPath "/sbin/init" then "SysV"
  else if Match regexSysD initPath then "Systemd"
  else if Match regexUpstart initPath then "Upstart"
  else if Contains initPath "busybox" then "OpenRC Busybox integration"
  else "".

Definition Execute (p : BaseEnvInitSystem) (upstream : gmap string Result)
  : Result :=
  if String.eqb (runtimeOs p) "windows" then
    {| Status_ := None_; Summary := "Task does not apply to Windows";
       URL := ""; Payload_ := PNil |}
  else if String.eqb (runtimeOs p) "darwin" then
    {| Status_ := None_; Summary := "Task does not apply to Mac OS";
       URL := ""; Payload_ := PNil |}
  else
    match evalSymlink p "/sbin/init" with
    | inr err =>
        {| Status_ := None_;
           Summary := "Unable to read symbolic link for /sbin/init: " +:+ err;
           URL := ""; Payload_ := PNil |}
    | inl initPath =>
        let initSystem := parseInitSystem initPath in
        if String.eqb initSystem "" then
          {| Status_ := None_;
             Summary := "Unable to parse init system from: " +:+ initPath;
             URL := ""; Payload_ := PNil |}
        else
          {| Status_ := Info;
             Summary := initSystem +:+ " detected";
             URL := ""; Payload_ := PString initSystem |}
    end.

(** The init systems the task knows. *)
Definition knownInitSystems : list string :=
  ["SysV"; "Systemd"; "Upstart"; "OpenRC Busybox integration"].

End InitSystem.

(** ** [fmt] and [strconv] *)

Module Fmt.

(** The double quote, tab and newline bytes of Go string literals. *)
Definition dquote : string := String "034"%char "".
Definition tab : string := String "009"%char "".
Definition newline : string := String "010"%char "".

(** [strconv.Itoa] on a length or a counter, also [%d]. *)
Definition Itoa (n : nat) : string := pretty n.

End Fmt.

(** ** Package [config]: [BaseConfigAppName] ([appname.go]) *)

Module AppName.
Import Tasks GoStrings Fmt.

Definition appNameEnvVarKey : string := "NEW_RELIC_APP_NAME".
Definition appNameSysProp : string := "-Dnewrelic.config.app_name".
Definition appNameConfigKeys : list string :=
  ["app_name"; "newrelic.appname"; "AppName"; "NewRelic.AppName"; "name"].

Definition defaultAppNames : list string :=
  ["PHP Application";
   "Python Application";
   "Python Application (Development)";
   "Python Application (Staging)";
   "My Application";
   "My Application (Development)";
   "My Application (Test)";
   "My Application (Staging)"].

(** The zero value [AppNameInfo{}]. *)
Definition zeroAppNameInfo : AppNameInfo := {| Name := ""; FilePath := "" |}.

Section Execute.

(** Methods and constants of package [tasks] that the task calls. *)
Variable HasPayload : Result -> bool.
Variable FindKey : ValidateBlob -> string -> list ValidateBlob.
Variable IsLeaf : ValidateBlob -> bool.
Variable Value : ValidateBlob -> string.
Variable AssertionErrorSummary : string.

Definition getAppNameFromEnvVar (upstream : gmap string Result) : AppNameInfo :=
  if decide (Status_ (upstreamAt upstream "Base/Env/CollectEnvVars") = Info) then
    (* a failed type assertion leaves [envVars] the nil map *)
    let envVars : gmap string string :=
      match Payload_ (upstreamAt upstream "Base/Env/CollectEnvVars") with
      | PMapStringString m => m
      | _ => ∅
      end in
    match envVars !! appNameEnvVarKey with
    | None => zeroAppNameInfo
    | Some appname => {| Name := appname; FilePath := appNameEnvVarKey |}
    end
  else zeroAppNameInfo.

Fixpoint firstSysProp (sysProps : list ProcIDSysProps) : string :=
  match sysProps with
  | [] => ""
  | p :: rest =>
      match SysPropsKeyToVal p !! appNameSysProp with
      | Some appName => appName
      | None => firstSysProp rest
      end
  end.

Definition getAppNameFromSysProps (upstream : gmap string Result) : string :=
  if decide (Status_ (upstreamAt upstream "Base/Env/CollectSysProps") = Info) then
    match Payload_ (upstreamAt upstream "Base/Env/CollectSysProps") with
    | PSysProps sysProps => firstSysProp sysProps
    | _ => ""
    end
  else "".

(** The loop over [appNameConfigKeys]. *)
Fixpoint findPrimaryNameKey (keys : list string) (parsed : ValidateBlob)
  : ValidateBlob :=
  match keys with
  | [] => emptyBlob
  | key :: rest =>
      match FindKey parsed key with
      | [] => findPrimaryNameKey rest parsed
      | [only] => only
      | (first :: _) as foundKeys =>
          match List.find (fun b => Contains (blobPath b) "common") foundKeys with
          | Some b => b
          | None => first
          end
      end
  end.

Definition findPrimaryNameKeyInConfigFile (configFile : ValidateElement)
  : ValidateBlob :=
  findPrimaryNameKey appNameConfigKeys (ParsedResult configFile).

Definition appNamesOfConfigFile (configFile : ValidateElement)
  : list AppNameInfo :=
  let primaryNameKey := findPrimaryNameKeyInConfigFile configFile in
  let configFilePath := ConfigFilePath (Config configFile) in
  let configFileName := FileName (Config configFile) in
  if (0 <? String.length (blobKey primaryNameKey))%nat then
    if negb (IsLeaf primaryNameKey) then
      List.map (fun child =>
             {| Name := Value child;
                FilePath := configFilePath +:+ configFileName |})
          (blobChildren primaryNameKey)
    else
      let appName := Value primaryNameKey in
      if (0 <? String.length appName)%nat then
        [{| Name := appName; FilePath := configFilePath +:+ configFileName |}]
      else []
  else [].

Definition getAppNamesFromConfig (configElements : list ValidateElement)
  : list AppNameInfo :=
  List.concat (List.map appNamesOfConfigFile configElements).

(** One line per pair of an application name and an equal default name. *)
Definition defaultNameMatchesOf (infos : list AppNameInfo) : string :=
  List.fold_left (fun acc info =>
    List.fold_left (fun acc defaultName =>
      if String.eqb (Name info) defaultName then
        acc +:+ (newline +:+ tab +:+ dquote +:+ Name info +:+ dquote
                 +:+ " as specified in " +:+ FilePath info)
      else acc) defaultAppNames acc) infos "".

Definition appNameDocs : string :=
  "https://docs.newrelic.com/docs/agents/manage-apm-agents/app-naming/name-your-application".

Definition defaultWarning : string :=
  newline +:+ "Multiple applications with the same default appname will all report to the same source. Consider changing to a unique appname and review the recommended documentation".

Definition Execute (upstream : gmap string Result) : Result :=
  let appNameInfoFromEnvVar := getAppNameFromEnvVar upstream in
  if (0 <? String.length (Name appNameInfoFromEnvVar))%nat then
    {| Status_ := Success;
       Summary := "A unique application name was found through the New Relic App name environment variable: "
                  +:+ Name appNameInfoFromEnvVar;
       URL := "";
       Payload_ := PAppNameInfos [appNameInfoFromEnvVar] |}
  else
  let appname := getAppNameFromSysProps upstream in
  if negb (String.eqb appname "") then
    {| Status_ := Success;
       Summary := "An application name was found through a New Relic system property: "
                  +:+ appname;
       URL := "";
       Payload_ := PAppNameInfos [{| Name := appname; FilePath := appNameSysProp |}] |}
  else
  if negb (HasPayload (upstreamAt upstream "Base/Config/Validate")) then
    {| Status_ := None_;
       Summary := "Task did not meet requirements necessary to run: no validated config files to check";
       URL := ""; Payload_ := PNil |}
  else
  match Payload_ (upstreamAt upstream "Base/Config/Validate") with
  | PValidateElements configElements =>
      let appNameInfosFromConfig := getAppNamesFromConfig configElements in
      match appNameInfosFromConfig with
      | [] =>
          {| Status_ := Warning;
             Summary := "No New Relic app names were found. Please ensure an app name is set in your New Relic agent configuration file or as a New Relic environment variable (NEW_RELIC_APP_NAME). Ignore this warning if you are troubleshooting for a non APM Agent.";
             URL := appNameDocs; Payload_ := PNil |}
      | first :: _ =>
          let defaultNameMatches := defaultNameMatchesOf appNameInfosFromConfig in
          if (0 <? String.length defaultNameMatches)%nat then
            {| Status_ := Warning;
               Summary := "One or more of your applications is using a default appname: "
                          +:+ defaultNameMatches +:+ " " +:+ defaultWarning;
               URL := appNameDocs; Payload_ := PNil |}
          else
            {| Status_ := Success;
               Summary := Itoa (List.length appNameInfosFromConfig)
                          +:+ " unique application name(s) found: " +:+ Name first;
               URL := "";
               Payload_ := PAppNameInfos appNameInfosFromConfig |}
      end
  | _ =>
      {| Status_ := Error; Summary := AssertionErrorSummary;
         URL := ""; Payload_ := PNil |}
  end.

End Execute.

End AppName.

(** ** Package [config] of the .NET tasks: [DotNetConfigAgent]
       ([agent_windows.go]) *)

Module DotNetAgent.
Import Tasks GoStrings Fmt.

Definition newrelicConfigKeys : list string := ["-agentEnabled"; "-licenseKey"].
Definition webAppConfigKeys : list string := ["-key"; "-targetFramework"].

Section Execute.

(** Constants and helpers of package [tasks], [strings.EqualFold] and the
    file system read by [tasks.FindStringInFile]. *)
Variable NoAgentDetectedSummary : string.
Variable NoAgentUpstreamSummary : string.
Variable UpstreamFailedSummary : string.
Variable AssertionErrorSummary : string.
Variable FindKey : ValidateBlob -> string -> list ValidateBlob.
Variable EqualFold : string -> string -> bool.
Variable CaseInsensitiveStringContains : string -> string -> bool.
Variable FindStringInFile : string -> string -> bool.

Definition checkRawFile (path : string) : bool :=
  FindStringInFile "[<]configuration[>]?" path.

(** The keys to look for in a file of that name; [None] when the name matches
    no pattern and the file is skipped. *)
Definition keysToCheckOf (fileName : string) : option (list string) :=
  if EqualFold fileName "newrelic.config" then Some newrelicConfigKeys
  else if EqualFold fileName "web.config"
          || CaseInsensitiveStringContains fileName ".exe.config"
  then Some webAppConfigKeys
  else None.

(** One turn of the loop of [checkConfigs]: is the file validated? *)
Definition configValidated (configFile : ValidateElement) : bool :=
  let fullPath := ConfigFilePath (Config configFile) +:+ FileName (Config configFile) in
  match keysToCheckOf (FileName (Config configFile)) with
  | None => false
  | Some keysToCheck =>
      let keysFound :=
        List.filter (fun key =>
          (0 <? List.length (FindKey (ParsedResult configFile) key))%nat)
          keysToCheck in
      if (0 <? List.length keysFound)%nat then true
      else checkRawFile fullPath
  end.

Definition checkConfigs (configFiles : list ValidateElement)
  : list ValidateElement * bool :=
  let filesValidated := List.filter configValidated configFiles in
  if (0 <? List.length filesValidated)%nat then (filesValidated, false)
  else (filesValidated, true).

Definition Execute (upstream : gmap string Result) : Result :=
  if negb (bool_decide (Status_ (upstreamAt upstream "DotNet/Agent/Installed") = Success)) then
    if String.eqb (Summary (upstreamAt upstream "DotNet/Agent/Installed"))
                  NoAgentDetectedSummary then
      {| Status_ := None_;
         Summary := NoAgentUpstreamSummary +:+ "DotNet/Agent/Installed";
         URL := ""; Payload_ := PNil |}
    else
      {| Status_ := None_;
         Summary := UpstreamFailedSummary +:+ "DotNet/Agent/Installed";
         URL := ""; Payload_ := PNil |}
  else
  match Payload_ (upstreamAt upstream "Base/Config/Validate") with
  | PValidateElements configFiles =>
      let '(filesToAdd, err) := checkConfigs configFiles in
      if err then
        {| Status_ := Warning;
           Summary := "Unable to validate the .NET agent config files because the files do not contain typical .NET agent configuration settings.";
           URL := ""; Payload_ := PNil |}
      else
        {| Status_ := Success;
           Summary := "Found " +:+ Itoa (List.length filesToAdd)
                      +:+ " .NET agent config files.";
           URL := ""; Payload_ := PValidateElements filesToAdd |}
  | _ =>
      {| Status_ := Error; Summary := AssertionErrorSummary;
         URL := ""; Payload_ := PNil |}
  end.

End Execute.

End DotNetAgent.

(** ** Package [output]: the artifact collector ([ProcessFilesChannel]) *)

Module Collector.
Import Tasks GoStrings Fmt.

(** Modelled from the spec: [tasks.FileCopyEnvelope] is declared outside
    these sources; Path, optional Stream, Identifier and duplicate counter as
    the data model lists them.  [Stream] is the optional channel of lines
    of a synthetic file; a [nil] stream is [None]. *)
Record FileCopyEnvelope :=
  { Path : string;
    Stream : option (list string);
    Identifier : string;
    duplicateCount : nat }.

(** Modelled from the spec: [IncrementDuplicateCount] is declared in package
    [tasks], outside these sources; it increments the envelope's duplicate
    counter. *)
Definition IncrementDuplicateCount (e : FileCopyEnvelope) : FileCopyEnvelope :=
  {| Path := Path e; Stream := Stream e; Identifier := Identifier e;
     duplicateCount := S (duplicateCount e) |}.

(** [envelope.Identifier = id] *)
Definition setIdentifier (id : string) (e : FileCopyEnvelope) : FileCopyEnvelope :=
  {| Path := Path e; Stream := Stream e; Identifier := id;
     duplicateCount := duplicateCount e |}.

(** One value read from [registration.Work.FilesChannel]: the identifier of
    the producing task and its [Result.FilesToCopy]. *)
Record FilesResult :=
  { TaskIdentifier : string; FilesToCopy : list FileCopyEnvelope }.

(** The two maps used as sets and the list handed to [copyFilesToZip]. *)
Record CollectorState :=
  { fileList : gset string;
    pathList : gset string;
    taskFiles : list FileCopyEnvelope }.

Definition initialState : CollectorState :=
  {| fileList := ∅; pathList := ∅; taskFiles := [] |}.

(** [mapContains] *)
Definition mapContains (m : gset string) (key : string) : bool :=
  bool_decide (key ∈ m).

Section Collect.

(** Modelled from the spec: [StoreName] is declared in package [tasks],
    outside these sources; it derives the in-archive name from the Path and
    the duplicate counter. *)
Variable storeName : string -> nat -> string.
(** [tasks.FileExists], a look at the disk. *)
Variable FileExists : string -> bool.
(** [envelope.IsExecutable()]: the answer, or the message of the error. *)
Variable IsExecutable : FileCopyEnvelope -> bool + string.

Definition StoreName (e : FileCopyEnvelope) : string :=
  storeName (Path e) (duplicateCount e).

(** The loop [for i := 1; i < 50; i++].  [fuel] bounds the recursion; the
    loop is entered with more fuel than the turns it can take. *)
Fixpoint nameLoop (fuel i : nat) (taskId : string) (envelope : FileCopyEnvelope)
    (st : CollectorState) {struct fuel} : CollectorState :=
  match fuel with
  | O => st
  | S fuel' =>
      if (i <? 50)%nat then
        if negb (mapContains (fileList st) (StoreName envelope)) then
          let envelope' :=
            if String.eqb (Identifier envelope) "" then setIdentifier taskId envelope
            else envelope in
          {| fileList := {[StoreName envelope]} ∪ fileList st;
             pathList := {[Path envelope]} ∪ pathList st;
             taskFiles := taskFiles st ++ [envelope'] |}
        else
          nameLoop fuel' (i + 1) taskId (IncrementDuplicateCount envelope) st
      else st
  end.

(** The body of the loop over [result.Result.FilesToCopy]. *)
Definition processEnvelope (taskId : string) (st : CollectorState)
    (envelope : FileCopyEnvelope) : CollectorState :=
  if bool_decide (Stream envelope = None) && negb (FileExists (Path envelope))
  then st
  else
    match IsExecutable envelope with
    | inr exeErr => st
    | inl true => st
    | inl false =>
        if bool_decide (Stream envelope = None)
           && mapContains (pathList st) (Path envelope)
        then st
        else nameLoop 50 1 taskId envelope st
    end.

Definition processResult (st : CollectorState) (result : FilesResult)
  : CollectorState :=
  List.fold_left (processEnvelope (TaskIdentifier result)) (FilesToCopy result) st.

(** [ProcessFilesChannel]: the values of the channel, in arrival order, up
    to its closure; the answer is the list given to [copyFilesToZip].  The
    debug log lines are left out. *)
Definition ProcessFilesChannel (channel : list FilesResult)
  : list FileCopyEnvelope :=
  taskFiles (List.fold_left processResult channel initialState).

End Collect.

(** [filepath.Base] on a slash-separated path without a trailing slash:
    what follows the last slash. *)
Fixpoint baseFrom (acc s : string) : string :=
  match s with
  | "" => acc
  | String c s' =>
      if Ascii.eqb c "/" then baseFrom "" s'
      else baseFrom (acc +:+ String c "") s'
  end.

(** Modelled from the spec: a [StoreName] that takes the file name of the
    Path and appends the duplicate counter as a numeric suffix when it is
    not zero. *)
Definition suffixStoreName (path : string) (count : nat) : string :=
  match count with
  | O => baseFrom "" path
  | S _ => baseFrom "" path +:+ "_" +:+ Itoa count
  end.

End Collector.

(** ** Package [logger] and the ways a call ends *)

Module Logger.

(** Modelled from the spec: package [logger] is outside these sources;
    one event per call of [Info], [Infof], [Debug] or [Debugf],
    [FixedPrefix], and [Fatalf]. *)
Inductive LogEvent :=
  | LogInfo (msg : string)
  | LogInfof (format : string) (args : list string)
  | LogDebug (msg : string)
  | LogFixedPrefix (width : nat) (prefix msg : string)
  | LogFatal (msg : string).

(** How a call ends: with its return value, in a panic, or with the end of
    the process. *)
Inductive Outcome (A : Type) :=
  | Returned (log : list LogEvent) (a : A)
  | Panicked (log : list LogEvent)
  | Exited (log : list LogEvent) (a : A).
Arguments Returned {A}.
Arguments Panicked {A}.
Arguments Exited {A}.

(** What reaches the user: everything but the debug lines. *)
Definition visible (log : list LogEvent) : list LogEvent :=
  List.filter (fun e => match e with LogDebug _ => false | _ => true end) log.

(** Modelled from the spec: the colours of package [color], declared
    outside these sources; a status is a colour of its own. *)
Inductive Color :=
  StatusColor (s : Tasks.Status) | White | Gray | LightRed | Yellow.

End Logger.

(** ** UTF-8 as [fmt] reads it *)

Module GoUtf8.

Definition inRange (lo hi : N) (c : ascii) : bool :=
  (lo <=? N_of_ascii c)%N && (N_of_ascii c <=? hi)%N.

(** The table [first] of package [utf8] with its accept ranges: for a
    leading byte of a sequence of several bytes, the size of the sequence
    and the bounds of its second byte; [None] for an ASCII or invalid byte. *)
Definition firstInfo (c : ascii) : option (nat * N * N) :=
  let b := N_of_ascii c in
  if (b <? 194)%N then None
  else if (b <=? 223)%N then Some (2%nat, 128%N, 191%N)
  else if (b =? 224)%N then Some (3%nat, 160%N, 191%N)
  else if (b <=? 236)%N then Some (3%nat, 128%N, 191%N)
  else if (b =? 237)%N then Some (3%nat, 128%N, 159%N)
  else if (b <=? 239)%N then Some (3%nat, 128%N, 191%N)
  else if (b =? 240)%N then Some (4%nat, 144%N, 191%N)
  else if (b <=? 243)%N then Some (4%nat, 128%N, 191%N)
  else if (b =? 244)%N then Some (4%nat, 128%N, 143%N)
  else None.

(** The number of bytes of the first rune of [s], as [for range] and
    [utf8.DecodeRuneInString] find it: an invalid or short sequence is one
    byte wide. *)
Definition runeWidth (s : string) : nat :=
  match s with
  | "" => 0
  | String c0 rest =>
      match firstInfo c0 with
      | None => 1
      | Some (sz, lo, hi) =>
          if (String.length s <? sz)%nat then 1 else
          match rest with
          | "" => 1
          | String c1 rest1 =>
              if negb (inRange lo hi c1) then 1
              else if (sz <=? 2)%nat then 2
              else
                match rest1 with
                | "" => 1
                | String c2 rest2 =>
                    if negb (inRange 128 191 c2) then 1
                    else if (sz <=? 3)%nat then 3
                    else
                      match rest2 with
                      | "" => 1
                      | String c3 _ =>
                          if negb (inRange 128 191 c3) then 1 else 4
                      end
                end
          end
      end
  end.

(** [s[:n]] and [s[n:]] *)
Fixpoint takeBytes (n : nat) (s : string) : string :=
  match n, s with
  | S n', String c s' => String c (takeBytes n' s')
  | _, _ => ""
  end.

Fixpoint dropBytes (n : nat) (s : string) : string :=
  match n, s with
  | S n', String _ s' => dropBytes n' s'
  | _, _ => s
  end.

(** [fmt]'s [truncateString] for a precision [prec]: the first [prec] runes
    of [s]. *)
Fixpoint truncateString (prec : nat) (s : string) : string :=
  match prec with
  | O => ""
  | S prec' =>
      match s with
      | "" => ""
      | String _ _ =>
          let w := runeWidth s in
          takeBytes w s +:+ truncateString prec' (dropBytes w s)
      end
  end.

(** Strings of one-byte characters. *)
Fixpoint isASCII (s : string) : bool :=
  match s with
  | "" => true
  | String c s' => (N_of_ascii c <? 128)%N && isASCII s'
  end.

End GoUtf8.

(** ** Package [output]: the result aggregator ([WriteLineResults]) *)

Module Aggregator.
Import Tasks GoStrings Fmt GoUtf8 Logger.

(** Modelled from the spec: [registration.TaskResult] is declared outside
    these sources; Task, Result and WasOverride as the data model lists
    them, the task being known by its identifier. *)
Record TaskResult :=
  { TaskId : string; Result_ : Result; WasOverride : bool }.

(** The flags of [config.Flags] the function reads. *)
Record Flags := { VeryQuiet : bool; AutoAttach : bool; APIKey : string }.

(** Modelled from the spec: the number of a status, which indexes
    [filtered [6]int]; the constants of [tasks.Status] are declared outside
    these sources, one number per status. *)
Definition statusIndex (s : Status) : nat :=
  match s with
  | None_ => 0 | Success => 1 | Warning => 2
  | Failure => 3 | Error => 4 | Info => 5
  end.

(** [newlineRegexp.ReplaceAllString(s, " ")] for the regex [\n]: every
    newline byte becomes a space. *)
Fixpoint replaceNewlines (s : string) : string :=
  match s with
  | "" => ""
  | String c s' =>
      String (if Ascii.eqb c "010" then " "%char else c) (replaceNewlines s')
  end.

(** The block under [result.Result.Status == tasks.Info] and the
    [payload := ""] before it. *)
Definition summaryPayload (r : Result) : string :=
  if bool_decide (Status_ r = Info) then
    let newSummary := replaceNewlines (Summary r) in
    let truncated := if (50 <? String.length newSummary)%nat then "..." else "" in
    " [" +:+ truncateString 50 newSummary +:+ truncated +:+ "] "
  else "".

(** The variables of the loop. *)
Record LoopState :=
  { filteredCounter : nat;
    filtered : list nat;
    outputResults : list TaskResult;
    hsmResult : Result;
    hsmPayload : gmap string bool;
    logged : list LogEvent }.

Definition initialLoopState : LoopState :=
  {| filteredCounter := 0;
     filtered := replicate 6 0%nat;
     outputResults := [];
     hsmResult := zeroResult;
     hsmPayload := ∅;
     logged := [] |}.

Section WriteLineResults.

(** Of packages [tasks], [color] and of this package, outside these
    sources: the name of a status, the active filter, the colouring of a
    string and the rendering of the counters. *)
Variable StatusToString : Status -> string.
Variable filteredResult : string -> bool.
Variable ColorString : Color -> string -> string.
Variable filteredToString : list nat -> string.
Variable flags : Flags.

(** The line of a displayed result. *)
Definition resultLine (result : TaskResult) : LogEvent :=
  let payload := summaryPayload (Result_ result) in
  let status := Status_ (Result_ result) in
  if WasOverride result then
    LogFixedPrefix 20 (ColorString (StatusColor status) (StatusToString status))
      (TaskId result +:+ payload +:+ ColorString LightRed " (override)")
  else
    LogFixedPrefix 20 (ColorString (StatusColor status) (StatusToString status))
      (TaskId result +:+ payload).

Definition doneWith (result : TaskResult) : LogEvent :=
  LogDebug ("Done with " +:+ TaskId result +:+ " in output results").

(** One turn of [for result := range registration.Work.ResultsChannel];
    [None] is the panic of the unchecked type assertion
    [Payload.(map[string]bool)]. *)
Definition loopBody (st : LoopState) (result : TaskResult) : option LoopState :=
  let status := Status_ (Result_ result) in
  if filteredResult (StatusToString status) then
    let hsm : option (Result * gmap string bool) :=
      if String.eqb (TaskId result) "Base/Config/ValidateHSM"
         && negb (isNil (Payload_ (Result_ result)))
      then
        match Payload_ (Result_ result) with
        | PMapStringBool m => Some (Result_ result, m)
        | _ => None
        end
      else Some (hsmResult st, hsmPayload st) in
    match hsm with
    | None => None
    | Some (hsmResult', hsmPayload') =>
        Some {| filteredCounter := filteredCounter st;
                filtered := filtered st;
                outputResults := outputResults st ++ [result];
                hsmResult := hsmResult';
                hsmPayload := hsmPayload';
                logged := logged st ++ [resultLine result; doneWith result] |}
    end
  else
    Some {| filteredCounter := filteredCounter st + 1;
            filtered := alter S (statusIndex status) (filtered st);
            outputResults := outputResults st ++ [result];
            hsmResult := hsmResult st;
            hsmPayload := hsmPayload st;
            logged := logged st ++ [doneWith result] |}.

Fixpoint loop (st : LoopState) (channel : list TaskResult)
  : LoopState + list LogEvent :=
  match channel with
  | [] => inl st
  | result :: rest =>
      match loopBody st result with
      | Some st' => loop st' rest
      | None => inr (logged st)
      end
  end.

(** What follows the loop, once the channel is closed. *)
Definition afterLoop (st : LoopState) : list LogEvent :=
  (if (0 <? filteredCounter st)%nat then
     let partialMessage :=
       if VeryQuiet flags then " results: " else " results not shown: " in
     [LogInfo (ColorString Gray
        (Itoa (filteredCounter st) +:+ partialMessage
         +:+ filteredToString (filtered st)))]
   else [])
  ++ (if (0 <? size (hsmPayload st))%nat then
        [LogInfof (Summary (hsmResult st)) [];
         if AutoAttach flags || negb (String.eqb (APIKey flags) "") then
           LogInfo ("See your uploaded results to validate High Security Mode settings." +:+ newline)
         else
           LogInfo ("To upload results and validate High Security Mode settings, run the Diagnostics CLI with the -a or -api-key flag." +:+ newline)]
      else [])
  ++ (if (0 <? List.length (outputResults st))%nat then
        [LogInfo "See nrdiag-output.json for full results."]
      else [])
  ++ [LogDebug "Done with writeLineResults"].

(** [WriteLineResults] on the values of the results channel, in arrival
    order, up to its closure. *)
Definition WriteLineResults (channel : list TaskResult)
  : Outcome (list TaskResult) :=
  match loop initialLoopState channel with
  | inl st => Returned (logged st ++ afterLoop st) (outputResults st)
  | inr log => Panicked log
  end.

End WriteLineResults.

End Aggregator.

(** ** Package [output]: the include path ([HandleIncludeFlag]) *)

Module IncludeFlag.
Import Tasks GoStrings Fmt Logger.

(** The names of the entries written to the zip file, in order. *)
Definition Zip := list string.

(** [os.FileInfo] as far as the walk reads it. *)
Record FileInfo := { IsDir : bool; Size : Z }.

(** One call of the function given to [filepath.Walk]. *)
Record WalkEntry :=
  { walkPath : string; walkInfo : FileInfo; walkErr : option string }.

(** [os.Stat(includePath)]: no error, an error that is [os.ErrNotExist], or
    another error. *)
Inductive StatOutcome :=
  | StatOk
  | StatNotExist (msg : string)
  | StatError (msg : string).

(** The disk: the answer of [os.Stat] and the entries [filepath.Walk]
    visits under a root, in its lexical order. *)
Record FileSystem :=
  { Stat : string -> StatOutcome;
    Entries : string -> list WalkEntry }.

(** An [int64] sum wraps around. *)
Definition wrap64 (z : Z) : Z := ((z + 2 ^ 63) mod 2 ^ 64 - 2 ^ 63)%Z.

(** [filepath.Walk]: the function is called on every entry until it answers
    an error, which ends the walk.  (No function here answers
    [filepath.SkipDir] of its own.) *)
Fixpoint Walk {S : Type} (fn : S -> WalkEntry -> S * option string)
    (entries : list WalkEntry) (st : S) : S * option string :=
  match entries with
  | [] => (st, None)
  | e :: rest =>
      match fn st e with
      | (st', Some err) => (st', Some err)
      | (st', None) => Walk fn rest st'
      end
  end.

Section HandleIncludeFlag.

(** Of this package and of package [logger], outside these sources: the size
    of a file, the copy of one walked entry into the zip file (the zip file
    after it, and its error), the colouring of a string, and whether
    [log.Fatalf] ends the process once the message is written, as the
    [Fatalf] of Go's own [log] does. *)
Variable WalkSizeFunction : FileInfo -> Z.
Variable WalkCopyFunction :
  string -> FileInfo -> option string -> Zip -> Zip * option string.
Variable ColorString : Color -> string -> string.
Variable FatalfExits : bool.
Variable fs : FileSystem.

Definition GetTotalSize (pathToDir : string) : Z * option string :=
  Walk (fun totalFileSize e =>
          match walkErr e with
          | Some err => (totalFileSize, Some err)
          | None =>
              if IsDir (walkInfo e) then (totalFileSize, None)
              else (wrap64 (totalFileSize + WalkSizeFunction (walkInfo e)), None)
          end)
       (Entries fs pathToDir) 0%Z.

Definition CopyIncludePathToZip (zipfile : Zip) (pathToDir : string)
  : Zip * option string :=
  Walk (fun zip e => WalkCopyFunction (walkPath e) (walkInfo e) (walkErr e) zip)
       (Entries fs pathToDir) zipfile.

Definition fatalMessage : string :=
  "The file(s) that you included were 4GB or larger.  Please specify a smaller file".

Definition HandleIncludeFlag (zipfile : Zip) (includePath : string)
  : Outcome Zip :=
  match Stat fs includePath with
  | StatOk =>
      let '(fileSize, err) := GetTotalSize includePath in
      let sizeLog :=
        match err with
        | Some msg => [LogDebug ("Error getting size: " +:+ msg)]
        | None => []
        end in
      let tooLarge := (3999999999 <? fileSize)%Z in
      let fatalLog := if tooLarge then [LogFatal fatalMessage] else [] in
      if tooLarge && FatalfExits then Exited (sizeLog ++ fatalLog) zipfile
      else
        let '(zipfile', _err) := CopyIncludePathToZip zipfile includePath in
        let copyLog :=
          match _err with
          | Some msg => [LogDebug ("Error adding to zip: " +:+ msg)]
          | None => []
          end in
        Returned (sizeLog ++ fatalLog ++ copyLog) zipfile'
  | StatNotExist _ =>
      Returned
        [LogInfof (ColorString Yellow ("Error: no files found at: %s" +:+ newline))
                  [includePath]]
        zipfile
  | StatError msg => Returned [LogInfo msg] zipfile
  end.

End HandleIncludeFlag.

End IncludeFlag.

(** ** Package [attach]: the uploader *)

Module Attach.
Import Fmt.

(** [UploadFiles], as the tests of the package build it. *)
Record UploadFiles :=
  { Path : string; Filename : string; NewFilename : string;
    Filesize : Z; URL : string; Key : string }.

(** [httpHelper.RequestWrapper], as the tests of the package build it; the
    payload is the bytes of the reader. *)
Record RequestWrapper :=
  { Method : string; WrapperURL : string; Payload : string;
    Length : Z; TimeoutSeconds : Z }.

(** The answer of the server, as far as the uploader reads it. *)
Record Response := { StatusCode : nat; Body : string }.

(** The interface the tests mock ([mocks.MAttachDeps]); a reader is the
    bytes it yields, an error is its message. *)
Class AttachDeps :=
  { GetFileSize : string -> Z;
    GetReader : string -> string + string;
    GetWrapper : string -> Z -> string -> string -> RequestWrapper;
    GetUrlsToReturn : Response -> string + string }.

Section Upload.

Context {deps : AttachDeps}.
(** [makeRequest]: the HTTP exchange, with its answer or the message of the
    transport error. *)
Variable makeRequest : RequestWrapper -> Response + string.

(** Modelled from the spec: [uploadFile] is not in these sources, its tests
    are.  The content of the file is read, transferred with its byte length
    declared, and the destination URL is taken from the answer; a reader
    error, a transport error, a status outside 200..299 and a URL error each
    fail the file. *)
Definition uploadFile (endpoint : string) (file : UploadFiles)
    (attachmentKey : string) : string + string :=
  let name := Path file +:+ Filename file in
  let fileSize := GetFileSize name in
  match GetReader name with
  | inr err => inr err
  | inl reader =>
      let wrapper := GetWrapper reader fileSize attachmentKey endpoint in
      match makeRequest wrapper with
      | inr err => inr err
      | inl res =>
          if (200 <=? StatusCode res)%nat && (StatusCode res <? 300)%nat then
            GetUrlsToReturn res
          else inr ("Error uploading, status code was " +:+ Itoa (StatusCode res))
      end
  end.

(** Modelled from the spec: [uploadFilesToAccount] is not in these sources,
    its tests are.  The files are uploaded in order; the first failure ends
    the batch with its error and no URL; otherwise the URLs are returned in
    the order of the files.  The first component lists the files whose
    upload was attempted. *)
Fixpoint uploadFilesToAccount (endpoint : string) (filesToUpload : list UploadFiles)
    (attachmentKey : string) : list UploadFiles * (list string + string) :=
  match filesToUpload with
  | [] => ([], inl [])
  | file :: rest =>
      match uploadFile endpoint file attachmentKey with
      | inr err => ([file], inr err)
      | inl url =>
          match uploadFilesToAccount endpoint rest attachmentKey with
          | (attempted, inl urls) => (file :: attempted, inl (url :: urls))
          | (attempted, inr err) => (file :: attempted, inr err)
          end
      end
  end.

End Upload.

(** The default endpoint the tests expect. *)
Definition defaultAttachmentsEndpoint : string :=
  "http://localhost:3000/attachments".

(** Modelled from the spec: [getAttachmentsEndpoint] is not in these
    sources, its tests are.  The flag [config.Flags.AttachmentEndpoint], then
    the persisted [config.AttachmentEndpoint], then the default. *)
Definition getAttachmentsEndpoint (flagsAttachmentEndpoint attachmentEndpoint : string)
  : string :=
  if negb (String.eqb flagsAttachmentEndpoint "") then flagsAttachmentEndpoint
  else if negb (String.eqb attachmentEndpoint "") then attachmentEndpoint
  else defaultAttachmentsEndpoint.

End Attach.

(** ** What the claims speak of *)

Module CollectorSpec.
Import Tasks Collector.

Section Inv.
Variable storeName : string -> nat -> string.

#[local] Abbreviation StoreName := (StoreName storeName).

(** What the collector maintains: the names and paths of the accepted
    envelopes are recorded, the names are pairwise distinct, and of two
    accepted envelopes of one Path the later one carries a Stream. *)
Record Inv (st : CollectorState) : Prop :=
  { inv_names : ∀ e, e ∈ taskFiles st → StoreName e ∈ fileList st;
    inv_paths : ∀ e, e ∈ taskFiles st → Path e ∈ pathList st;
    inv_nodup : NoDup (List.map StoreName (taskFiles st));
    inv_once : ∀ i j e1 e2, (i < j)%nat →
        taskFiles st !! i = Some e1 → taskFiles st !! j = Some e2 →
        Path e1 = Path e2 → Stream e2 ≠ None }.

End Inv.

(** An envelope of a family of one logical name: named [name c] at counter
    [c], fresh from its task, present on disk and not an executable. *)
Definition colliding (storeName : string -> nat -> string)
    (FileExists : string -> bool)
    (IsExecutable : FileCopyEnvelope -> bool + string)
    (name : nat -> string) (e : FileCopyEnvelope) : Prop :=
  (∀ c, storeName (Path e) c = name c) ∧ duplicateCount e = 0%nat
  ∧ FileExists (Path e) = true ∧ IsExecutable e = inl false.

End CollectorSpec.

Module AggregatorSpec.
Import Tasks GoStrings Fmt GoUtf8 Logger Aggregator.

(** The ellipsis of [summaryPayload]. *)
Definition ellipsisOf (newSummary : string) : string :=
  if (50 <? String.length newSummary)%nat then "..." else "".

(** The summary as the specification words it: flattened, cut to 50 characters, and marked
    with the ellipsis exactly when the cut shortened it. *)
Definition flattenedCutMarked (summary : string) : string :=
  let flat := replaceNewlines summary in
  let cut := truncateString 50 flat in
  if decide (cut = flat) then cut else cut +:+ "...".

Section Closure.
Variable StatusToString : Status -> string.
Variable filteredResult : string -> bool.
Variable ColorString : Color -> string -> string.
Variable filteredToString : list nat -> string.
Variable flags : Flags.

#[local] Abbreviation resultLine := (resultLine StatusToString ColorString).

(** A result the active filter hides. *)
Definition hidden (r : TaskResult) : bool :=
  negb (filteredResult (StatusToString (Status_ (Result_ r)))).

(** The number of hidden results, and of those of one status. *)
Definition hiddenCount (results : list TaskResult) : nat :=
  List.length (List.filter hidden results).

Definition hiddenOfStatus (s : Status) (results : list TaskResult) : nat :=
  List.length
    (List.filter (fun r => hidden r && bool_decide (Status_ (Result_ r) = s))
       results).

(** The breakdown of the hidden results by status, in the order of the
    counters. *)
Definition breakdown (results : list TaskResult) : list nat :=
  List.map (fun s => hiddenOfStatus s results)
    [None_; Success; Warning; Failure; Error; Info].

(** The lines written while the results arrive: a line for each displayed
    result, none for a hidden one. *)
Definition resultLines (results : list TaskResult) : list LogEvent :=
  List.flat_map (fun r =>
    if hidden r then [doneWith r] else [resultLine r; doneWith r]) results.

(** The one message on the hidden results. *)
Definition hiddenSummary (results : list TaskResult) : list LogEvent :=
  match hiddenCount results with
  | O => []
  | S _ =>
      [LogInfo (ColorString Gray
         (Itoa (hiddenCount results)
          +:+ (if VeryQuiet flags then " results: " else " results not shown: ")
          +:+ filteredToString (breakdown results)))]
  end.

(** The high-security-mode result in force after [results]: the last
    displayed Base/Config/ValidateHSM result with a payload. *)
Definition hsmStep (acc : Result * gmap string bool) (r : TaskResult)
  : Result * gmap string bool :=
  if negb (hidden r) && String.eqb (TaskId r) "Base/Config/ValidateHSM" then
    match Payload_ (Result_ r) with
    | PMapStringBool m => (Result_ r, m)
    | _ => acc
    end
  else acc.

Definition hsmSeen (results : list TaskResult) : Result * gmap string bool :=
  List.fold_left hsmStep results (zeroResult, ∅).

(** The lines on high security mode and on the output file. *)
Definition closingLines (results : list TaskResult) : list LogEvent :=
  (if (0 <? size (hsmSeen results).2)%nat then
     [LogInfof (Summary (hsmSeen results).1) [];
      if AutoAttach flags || negb (String.eqb (APIKey flags) "") then
        LogInfo ("See your uploaded results to validate High Security Mode settings." +:+ newline)
      else
        LogInfo ("To upload results and validate High Security Mode settings, run the Diagnostics CLI with the -a or -api-key flag." +:+ newline)]
   else [])
  ++ (match results with
      | [] => []
      | _ :: _ => [LogInfo "See nrdiag-output.json for full results."]
      end)
  ++ [LogDebug "Done with writeLineResults"].

(** The contract on the payload of Base/Config/ValidateHSM, which the
    unchecked type assertion relies on: nil or a [map[string]bool]. *)
Definition payloadContract (r : TaskResult) : Prop :=
  TaskId r = "Base/Config/ValidateHSM" →
  Payload_ (Result_ r) = PNil ∨ ∃ m, Payload_ (Result_ r) = PMapStringBool m.

(** The counters after some more results. *)
Definition tally (counts : list nat) (results : list TaskResult) : list nat :=
  List.fold_left (fun f r =>
    if hidden r then alter S (statusIndex (Status_ (Result_ r))) f else f)
    results counts.

(** The variables of the loop after one more result. *)
Definition stepState (st : LoopState) (r : TaskResult) : LoopState :=
  {| filteredCounter := filteredCounter st + (if hidden r then 1 else 0);
     filtered := tally (filtered st) [r];
     outputResults := outputResults st ++ [r];
     hsmResult := (hsmStep (hsmResult st, hsmPayload st) r).1;
     hsmPayload := (hsmStep (hsmResult st, hsmPayload st) r).2;
     logged := logged st ++ resultLines [r] |}.

End Closure.

End AggregatorSpec.

Module IncludeFlagSpec.
Import Tasks Fmt Logger IncludeFlag.

(** The debug line on a failed size walk. *)
Definition sizeLog (WalkSizeFunction : FileInfo -> Z) (fs : FileSystem)
    (includePath : string) : list LogEvent :=
  match (GetTotalSize WalkSizeFunction fs includePath).2 with
  | Some msg => [LogDebug ("Error getting size: " +:+ msg)]
  | None => []
  end.

(** The bytes of the regular files among the walked entries. *)
Definition regularBytes (WalkSizeFunction : FileInfo -> Z)
    (entries : list WalkEntry) : Z :=
  List.fold_right (fun e total =>
    if IsDir (walkInfo e) then total
    else (WalkSizeFunction (walkInfo e) + total)%Z) 0%Z entries.

(** C1 as stated, for a given behaviour of [Fatalf]: an oversize include is
    rejected with the error, the step returns, and the zip file is as it
    was. *)
Definition rejectedAndArchiveGoesOn (FatalfExits : bool) : Prop :=
  ∀ (WalkSizeFunction : FileInfo -> Z)
    (WalkCopyFunction :
       string -> FileInfo -> option string -> Zip -> Zip * option string)
    (ColorString : Color -> string -> string) (fs : FileSystem)
    (zipfile : Zip) (includePath : string),
    Stat fs includePath = StatOk →
    (3999999999 < (GetTotalSize WalkSizeFunction fs includePath).1)%Z →
    ∃ log,
      HandleIncludeFlag WalkSizeFunction WalkCopyFunction ColorString
        FatalfExits fs zipfile includePath = Returned log zipfile
      ∧ LogFatal fatalMessage ∈ log.

End IncludeFlagSpec.

Module AttachSpec.
Import Fmt Attach.

Section Failures.
Context {deps : AttachDeps}.
Variable makeRequest : RequestWrapper -> Response + string.
Variable endpoint attachmentKey : string.

(** The name under which the file is read, and its request. *)
Definition nameOf (file : UploadFiles) : string := Path file +:+ Filename file.
Definition wrapperOf (file : UploadFiles) (reader : string) : RequestWrapper :=
  GetWrapper reader (GetFileSize (nameOf file)) attachmentKey endpoint.

(** The four ways one file fails. *)
Inductive fileFails (file : UploadFiles) : Prop :=
  | readerError err :
      GetReader (nameOf file) = inr err → fileFails file
  | transportError reader err :
      GetReader (nameOf file) = inl reader →
      makeRequest (wrapperOf file reader) = inr err → fileFails file
  | badStatus reader res :
      GetReader (nameOf file) = inl reader →
      makeRequest (wrapperOf file reader) = inl res →
      ¬ (200 ≤ StatusCode res < 300)%nat → fileFails file
  | urlError reader res err :
      GetReader (nameOf file) = inl reader →
      makeRequest (wrapperOf file reader) = inl res →
      GetUrlsToReturn res = inr err → fileFails file.

End Failures.

End AttachSpec.

(** ** Sample inputs *)

Module Samples.
Import Tasks GoStrings Fmt Logger Collector Aggregator IncludeFlag.

(** A Linux host whose [/sbin/init] is a link to systemd. *)
Definition linuxSystemd : InitSystem.BaseEnvInitSystem :=
  {| InitSystem.runtimeOs := "linux";
     InitSystem.evalSymlink := fun _ => inl "/lib/systemd/systemd" |}.

(** An environment in which NEW_RELIC_APP_NAME is set, while a system
    property names the application too. *)
Definition sampleUpstream : gmap string Result :=
  <["Base/Env/CollectEnvVars" :=
      {| Status_ := Info; Summary := ""; URL := "";
         Payload_ := PMapStringString {["NEW_RELIC_APP_NAME" := "billing"]} |}]>
  (<["Base/Env/CollectSysProps" :=
      {| Status_ := Info; Summary := ""; URL := "";
         Payload_ := PSysProps
           [{| SysPropsKeyToVal := {["-Dnewrelic.config.app_name" := "other"]} |}] |}]>
   ∅).

(** The agent was not detected upstream, and a config payload of the wrong
    type is waiting in Base/Config/Validate. *)
Definition notInstalledUpstream : gmap string Result :=
  <["DotNet/Agent/Installed" :=
      {| Status_ := None_; Summary := "no agent"; URL := ""; Payload_ := PNil |}]>
  (<["Base/Config/Validate" :=
      {| Status_ := Success; Summary := ""; URL := "";
         Payload_ := PString "not a list of files" |}]> ∅).

(** Sixty files of one name, each in a directory of its own. *)
Definition sameNameEnvelopes (n : nat) : list FileCopyEnvelope :=
  List.map (fun i => {| Path := "/var/log/" +:+ Itoa i +:+ "/out.log";
                        Stream := None;
                        Identifier := ""; duplicateCount := 0 |}) (seq 0 n).

Definition sixty : list FilesResult :=
  [{| TaskIdentifier := "Base/Log/Copy"; FilesToCopy := sameNameEnvelopes 60 |}].

(** Two streamed envelopes of one Path. *)
Definition twoStreams : list FilesResult :=
  [{| TaskIdentifier := "Base/Env/Cmd";
      FilesToCopy :=
        [{| Path := "cmd.txt"; Stream := Some ["first"];
            Identifier := ""; duplicateCount := 0 |};
         {| Path := "cmd.txt"; Stream := Some ["second"];
            Identifier := ""; duplicateCount := 0 |}] |}].

(** A file copied twice and streamed once under the same Path: the second
    file-backed envelope is dropped, the streamed one is kept. *)
Definition mixed : list FilesResult :=
  [{| TaskIdentifier := "Base/Log/Copy";
      FilesToCopy :=
        [{| Path := "/etc/nr.yml"; Stream := None;
            Identifier := ""; duplicateCount := 0 |};
         {| Path := "/etc/nr.yml"; Stream := None;
            Identifier := ""; duplicateCount := 0 |};
         {| Path := "/etc/nr.yml"; Stream := Some ["line"];
            Identifier := "Cmd"; duplicateCount := 0 |}] |}].

(** A summary of 51 bytes on two lines. *)
Definition longInfo : Result :=
  {| Status_ := Info;
     Summary := "first line" +:+ newline
                +:+ "and a second line that runs past the cap";
     URL := ""; Payload_ := PNil |}.

(** Thirty times the two bytes of U+00E9: 60 bytes, 30 characters. *)
Definition accents : string :=
  Eval vm_compute in
    List.fold_right String.append ""
      (replicate 30 (String (ascii_of_nat 195) (String (ascii_of_nat 169) ""))).

(** The names of the statuses, and a filter that hides Success and None. *)
Definition statusName (s : Status) : string :=
  match s with
  | None_ => "None" | Success => "Success" | Warning => "Warning"
  | Failure => "Failure" | Error => "Error" | Info => "Info"
  end.

Definition showIssues (name : string) : bool :=
  negb (String.eqb name "Success" || String.eqb name "None").

Definition plainColor (c : Color) (s : string) : string := s.

Definition showCounts (counts : list nat) : string :=
  List.fold_right (fun n acc => Itoa n +:+ " " +:+ acc) "" counts.

Definition loud : Flags :=
  {| VeryQuiet := false; AutoAttach := false; APIKey := "" |}.

Definition resultOf (id : string) (status : Status) (summary : string)
  : TaskResult :=
  {| TaskId := id;
     Result_ := {| Status_ := status; Summary := summary; URL := "";
                   Payload_ := PNil |};
     WasOverride := false |}.

(** Four results, two of them hidden. *)
Definition fourResults : list TaskResult :=
  [resultOf "Base/Config/Collect" Success "found";
   resultOf "Base/Env/HostInfo" Info "host";
   resultOf "Java/Config/Agent" None_ "n/a";
   resultOf "Base/Log/Copy" Warning "no logs"].

(** An include path with two files of 2,500,000,000 bytes. *)
Definition bigInclude : FileSystem :=
  {| Stat := fun _ => StatOk;
     Entries := fun _ =>
       [{| walkPath := "inc"; walkInfo := {| IsDir := true; Size := 4096 |};
           walkErr := None |};
        {| walkPath := "inc/a.bin";
           walkInfo := {| IsDir := false; Size := 2500000000 |};
           walkErr := None |};
        {| walkPath := "inc/b.bin";
           walkInfo := {| IsDir := false; Size := 2500000000 |};
           walkErr := None |}] |}.

(** A copy that writes every regular file under the Include/ prefix. *)
Definition copyUnderInclude (path : string) (info : FileInfo)
    (err : option string) (zip : Zip) : Zip * option string :=
  match err with
  | Some msg => (zip, Some msg)
  | None => if IsDir info then (zip, None) else (zip ++ ["Include/" +:+ path], None)
  end.

(** The server of the upload tests: status 200 on a path with [/success],
    500 on one with [/error]. *)
Definition testServer (wrapper : Attach.RequestWrapper)
  : Attach.Response + string :=
  if Contains (Attach.WrapperURL wrapper) "/success" then
    inl {| Attach.StatusCode := 200; Attach.Body := "" |}
  else if Contains (Attach.WrapperURL wrapper) "/error" then
    inl {| Attach.StatusCode := 500; Attach.Body := "" |}
  else inl {| Attach.StatusCode := 200; Attach.Body := "" |}.

(** [mocks.MAttachDeps] with the returns of one row of the test table. *)
Definition mockDeps (getReader : string + string) (wrapperPath : string)
    (getUrlsToReturn : string + string) : Attach.AttachDeps :=
  {| Attach.GetFileSize := fun _ => 4%Z;
     Attach.GetReader := fun _ => getReader;
     Attach.GetWrapper := fun _ _ _ _ =>
       {| Attach.Method := "POST";
          Attach.WrapperURL := "http://127.0.0.1" +:+ wrapperPath;
          Attach.Payload := "mock"; Attach.Length := 4;
          Attach.TimeoutSeconds := 7200 |};
     Attach.GetUrlsToReturn := fun _ => getUrlsToReturn |}.

Definition jsonfile : Attach.UploadFiles :=
  {| Attach.Path := "/"; Attach.Filename := "file1.json";
     Attach.NewFilename := "file1-timestamp.json"; Attach.Filesize := 4;
     Attach.URL := ""; Attach.Key := "testKey" |}.

Definition zipfile : Attach.UploadFiles :=
  {| Attach.Path := "/"; Attach.Filename := "file2.zip";
     Attach.NewFilename := "file2-timestamp.zip"; Attach.Filesize := 9;
     Attach.URL := ""; Attach.Key := "testKey" |}.

(** A service that stores every file and knows the URL of the first one
    only: the URL request of any other file answers an error. *)
Definition echoServer (wrapper : Attach.RequestWrapper)
  : Attach.Response + string :=
  inl {| Attach.StatusCode := 200; Attach.Body := Attach.Payload wrapper |}.

Definition firstOnlyDeps : Attach.AttachDeps :=
  {| Attach.GetFileSize := fun _ => 4%Z;
     Attach.GetReader := fun name => inl name;
     Attach.GetWrapper := fun reader size _ endpoint =>
       {| Attach.Method := "PUT"; Attach.WrapperURL := endpoint;
          Attach.Payload := reader; Attach.Length := size;
          Attach.TimeoutSeconds := 7200 |};
     Attach.GetUrlsToReturn := fun res =>
       if String.eqb (Attach.Body res) "/file1.json"
       then inl "https://newrelic.com/file1.json" else inr "URL Error" |}.

End Samples.

(** ** Package [output]: the summary of issues ([WriteSummary]) *)

Module Summary.
Import Tasks GoStrings Fmt Logger Aggregator.

(** The calls of [log.Info], with their operands, and of [log.Infof]. *)
Inductive Line :=
  | Info (operands : list string)
  | Infof (format : string).

(** The counters of the loop over the failures. *)
Record Counters :=
  { shownLines : list Line; notShown : nat; notShownByStatus : list nat }.

Section WriteSummary.

(** Of packages [tasks], [color] and of this package, outside these
    sources: whether a result is a failure, the name of a status, the
    active filter, the colouring of a string and the rendering of the
    counters. *)
Variable IsFailure : Result -> bool.
Variable StatusToString : Status -> string.
Variable filteredResult : string -> bool.
Variable ColorString : Color -> string -> string.
Variable filteredToString : list nat -> string.

(** What is written for one failure that the filter lets through. *)
Definition issueLines (result : TaskResult) : list Line :=
  [Info [ColorString (StatusColor (Status_ (Result_ result)))
           (StatusToString (Status_ (Result_ result)));
         "-"; TaskId result];
   Info [Summary (Result_ result)]]
  ++ (if negb (String.eqb (URL (Result_ result)) "") then
        [Info ["See " +:+ URL (Result_ result) +:+ " for more information."]]
      else [])
  ++ [Infof newline].

(** One turn of the loop over [failures]. *)
Definition issueStep (c : Counters) (result : TaskResult) : Counters :=
  if filteredResult (StatusToString (Status_ (Result_ result))) then
    {| shownLines := shownLines c ++ issueLines result;
       notShown := notShown c;
       notShownByStatus := notShownByStatus c |}
  else
    {| shownLines := shownLines c;
       notShown := notShown c + 1;
       notShownByStatus :=
         alter S (statusIndex (Status_ (Result_ result))) (notShownByStatus c) |}.

Definition WriteSummary (data : list TaskResult) : list Line :=
  if (List.length data <? 1)%nat then []
  else
    let failures := List.filter (fun result => IsFailure (Result_ result)) data in
    let header :=
      if (List.length failures =? 0)%nat then
        Info [ColorString White (newline +:+ "No Issues Found" +:+ newline)]
      else
        Info [ColorString White
                (newline +:+ "Issues Found" +:+ newline
                 +:+ "-------------------------------------------------")] in
    let c := List.fold_left issueStep failures
               {| shownLines := []; notShown := 0;
                  notShownByStatus := replicate 6 0%nat |} in
    [header] ++ shownLines c
    ++ (if (0 <? notShown c)%nat then
          [Info [ColorString Gray
                   (newline +:+ Itoa (notShown c) +:+ " issues not shown: "
                    +:+ filteredToString (notShownByStatus c) +:+ newline
                    +:+ "(Use " +:+ dquote +:+ "-filter all" +:+ dquote
                    +:+ " to see all issues)")]]
        else []).

End WriteSummary.

End Summary.

(** ** Package [output]: the outputs of a script ([CopyScriptOutputsToZip]) *)

Module ScriptOutput.
Import Tasks GoStrings Fmt Collector.

(** Modelled from the spec: [scriptrunner.ScriptData] is declared outside
    these sources; the output path and the additional files. *)
Record ScriptData := { OutputPath : string; AddtlFiles : list string }.

(** The zip file, by the names of its entries in order, and the file list
    that [addFileToFileList] extends. *)
Record Archive := { entries : list string; fileListed : list FileCopyEnvelope }.

Section Copy.

(** The calls that can fail, each with the message of its error: [os.Stat],
    [os.Open] and [zip.FileInfoHeader] by the name of the file,
    [zipfile.CreateHeader] by the name of the entry, [io.Copy] by the name
    of the file; and [filepath.ToSlash]. *)
Variable osStat : string -> option string.
Variable osOpen : string -> option string.
Variable FileInfoHeader : string -> option string.
Variable CreateHeader : string -> option string.
Variable ioCopy : string -> option string.
Variable ToSlash : string -> string.

Definition entryName (filename : string) : string :=
  ToSlash ("nrdiag-output/ScriptOutput/" +:+ filename).

(** The body of the loop: the archive after it, and the error that ends
    the function. *)
Definition copyOne (a : Archive) (filename : string) : Archive * option string :=
  match osStat filename with
  | Some err => (a, Some err)
  | None =>
      match osOpen filename with
      | Some err => (a, Some err)
      | None =>
          match FileInfoHeader filename with
          | Some err => (a, Some err)
          | None =>
              match CreateHeader (entryName filename) with
              | Some err => (a, Some err)
              | None =>
                  let written :=
                    {| entries := entries a ++ [entryName filename];
                       fileListed := fileListed a |} in
                  match ioCopy filename with
                  | Some err => (written, Some err)
                  | None =>
                      ({| entries := entries written;
                          fileListed := fileListed written ++
                            [{| Path := filename; Stream := None;
                                Identifier := "ScriptOutput/";
                                duplicateCount := 0 |}] |}, None)
                  end
              end
          end
      end
  end.

Fixpoint copyAll (a : Archive) (filelist : list string) : Archive * option string :=
  match filelist with
  | [] => (a, None)
  | filename :: rest =>
      match copyOne a filename with
      | (a', Some err) => (a', Some err)
      | (a', None) => copyAll a' rest
      end
  end.

Definition CopyScriptOutputsToZip (scriptData : ScriptData) (zipfile : Archive)
  : Archive * option string :=
  copyAll zipfile (OutputPath scriptData :: AddtlFiles scriptData).

End Copy.

End ScriptOutput.

(** ** Packages [logs] and [infra]: the Kubernetes tasks *)

Module K8s.
Import Tasks GoStrings Fmt Collector.

(** A result with the [FilesToCopy] it carries. *)
Record TaskOutput := { result : Result; filesToCopy : list FileCopyEnvelope }.

Section Tasks.

(** Of the packages and of package [tasks], outside these sources: the name
    of the kubectl binary, the run of a command (its output, or the message
    of its error) and the lines [tasks.StreamBlob] sends on the stream. *)
Variable kubectlBin : string.
Variable cmdExec : string -> list string -> string + string.
Variable StreamBlob : string -> list string.

(** [options.Options[key]] *)
Definition optionAt (options : gmap string string) (key : string) : string :=
  default "" (options !! key).

(** [K8sPodLogs] *)
Record K8sPodLogs := { appName : string; labelSelector : string }.

Definition podLogsIdentifier (p : K8sPodLogs) : string :=
  "K8s/Logs/" +:+ appName p.

Definition podLogsCommand (p : K8sPodLogs) (namespace : string) : list string :=
  if String.eqb namespace "" then
    ["logs"; "-l"; labelSelector p; "--all-containers"; "--prefix"]
  else
    ["logs"; "-n"; namespace; "-l"; labelSelector p; "--all-containers"; "--prefix"].

Definition podLogsRunCommand (p : K8sPodLogs) (namespace : string)
  : string + string :=
  cmdExec kubectlBin (podLogsCommand p namespace).

Definition podLogsExecute (p : K8sPodLogs) (options : gmap string string)
  : TaskOutput :=
  let namespace := optionAt options "k8sNamespace" in
  match podLogsRunCommand p namespace with
  | inr err =>
      {| result := {| Status_ := Error;
                      Summary := "Error retrieving logs: " +:+ err;
                      URL := ""; Payload_ := PNil |};
         filesToCopy := [] |}
  | inl res =>
      {| result := {| Status_ := Info;
                      Summary := "Successfully collected K8s " +:+ appName p
                                 +:+ " pod logs";
                      URL := ""; Payload_ := PNil |};
         filesToCopy :=
           [{| Path := appName p +:+ ".log"; Stream := Some (StreamBlob res);
               Identifier := ""; duplicateCount := 0 |}] |}
  end.

(** [K8sDeployment] *)
Definition deploymentCommand (namespace : string) : list string :=
  if String.eqb namespace "" then
    ["describe"; "deployment"; "-l";
     "app.kubernetes.io/name=newrelic-infrastructure"]
  else
    ["describe"; "deployment"; "-n"; namespace; "-l";
     "app.kubernetes.io/name=newrelic-infrastructure"].

Definition deploymentRunCommand (namespace : string) : string + string :=
  cmdExec kubectlBin (deploymentCommand namespace).

Definition deploymentExecute (options : gmap string string) : TaskOutput :=
  let namespace := optionAt options "namespace" in
  match deploymentRunCommand namespace with
  | inr err =>
      {| result := {| Status_ := Error;
                      Summary := "Error retrieving deployment details: " +:+ err;
                      URL := ""; Payload_ := PNil |};
         filesToCopy := [] |}
  | inl res =>
      {| result := {| Status_ := Info;
                      Summary := "Successfully collected K8s newrelic-infrastructure deployment";
                      URL := ""; Payload_ := PNil |};
         filesToCopy :=
           [{| Path := "k8sInfraDeployment.txt"; Stream := Some (StreamBlob res);
               Identifier := ""; duplicateCount := 0 |}] |}
  end.

End Tasks.

End K8s.

(** ** What the further properties speak of, and their sample inputs *)

Module MoreSamples.
Import Tasks GoStrings Fmt Logger Collector Aggregator IncludeFlag.

(** System properties of two processes, the second of which names the
    application. *)
Definition sysPropsUpstream : gmap string Result :=
  <["Base/Env/CollectSysProps" :=
      {| Status_ := Info; Summary := ""; URL := "";
         Payload_ := PSysProps
           [{| SysPropsKeyToVal := {["-Xmx" := "2g"]} |};
            {| SysPropsKeyToVal := {["-Dnewrelic.config.app_name" := "svc"]} |}] |}]>
  ∅.

(** A parsed file is its own [app_name] key; its value is its raw value. *)
Definition findAppName (parsed : ValidateBlob) (key : string) : list ValidateBlob :=
  if String.eqb key "app_name" then [parsed] else [].

Definition rawValue (b : ValidateBlob) : string :=
  match b with Blob _ _ v _ => v end.

Definition oneConfig (name : string) : ValidateElement :=
  {| Config := {| FileName := "newrelic.yml"; ConfigFilePath := "/etc/" |};
     ParsedResult := Blob "app_name" "/common/app_name" name [] |}.

Definition configUpstream (name : string) : gmap string Result :=
  <["Base/Config/Validate" :=
      {| Status_ := Success; Summary := ""; URL := "";
         Payload_ := PValidateElements [oneConfig name] |}]> ∅.

(** The agent is installed and one [newrelic.config] with a licence key is
    waiting upstream, beside a file of another name. *)
Definition findLicenseKey (parsed : ValidateBlob) (key : string)
  : list ValidateBlob :=
  if String.eqb key "-licenseKey" then [parsed] else [].

Definition agentConfig : ValidateElement :=
  {| Config := {| FileName := "newrelic.config"; ConfigFilePath := "C:/nr/" |};
     ParsedResult := Blob "configuration" "/configuration" "" [] |}.

Definition otherConfig : ValidateElement :=
  {| Config := {| FileName := "notes.txt"; ConfigFilePath := "C:/nr/" |};
     ParsedResult := Blob "" "" "" [] |}.

Definition installedUpstream : gmap string Result :=
  <["DotNet/Agent/Installed" :=
      {| Status_ := Success; Summary := ""; URL := ""; Payload_ := PNil |}]>
  (<["Base/Config/Validate" :=
      {| Status_ := Success; Summary := ""; URL := "";
         Payload_ := PValidateElements [otherConfig; agentConfig] |}]> ∅).

(** How an accepted envelope relates to the incoming envelope it was: same
    Path and Stream, the counter raised by 48 at most, the identifier of
    the task when it had none. *)
Definition acceptedFrom (taskId : string) (incoming accepted : FileCopyEnvelope)
  : Prop :=
  Path accepted = Path incoming
  ∧ Stream accepted = Stream incoming
  ∧ (duplicateCount incoming ≤ duplicateCount accepted
     ≤ duplicateCount incoming + 48)%nat
  ∧ Identifier accepted
    = (if String.eqb (Identifier incoming) "" then taskId
       else Identifier incoming).

(** The number of envelopes a channel carries. *)
Definition incomingCount (channel : list FilesResult) : nat :=
  sum_list (List.map (fun r => length (FilesToCopy r)) channel).

(** The lines of displayed results among the events written. *)
Definition isResultLine (e : LogEvent) : bool :=
  match e with LogFixedPrefix _ _ _ => true | _ => false end.

(** A displayed result of Base/Config/ValidateHSM whose payload is a
    string. *)
Definition badHsm : TaskResult :=
  {| TaskId := "Base/Config/ValidateHSM";
     Result_ := {| Status_ := Warning; Summary := "hsm"; URL := "";
                   Payload_ := PString "enabled" |};
     WasOverride := false |}.

(** Results the filter of [showIssues] lets through are failures here when
    they are Warnings, Failures or Errors. *)
Definition isIssue (r : Result) : bool :=
  match Status_ r with
  | Warning | Failure | Error => true
  | _ => false
  end.

Definition longWarning : TaskResult :=
  {| TaskId := "Base/Log/Copy";
     Result_ := {| Status_ := Warning;
                   Summary := "No log files were found in any of the 17 locations that were searched";
                   URL := "https://docs.newrelic.com"; Payload_ := PNil |};
     WasOverride := false |}.

(** The error that ends the copy of one script output, if any: the first
    of its five calls that fails. *)
Definition fileError (osStat osOpen FileInfoHeader CreateHeader ioCopy :
                        string -> option string)
    (ToSlash : string -> string) (filename : string) : option string :=
  match osStat filename with
  | Some err => Some err
  | None =>
      match osOpen filename with
      | Some err => Some err
      | None =>
          match FileInfoHeader filename with
          | Some err => Some err
          | None =>
              match CreateHeader (ScriptOutput.entryName ToSlash filename) with
              | Some err => Some err
              | None => ioCopy filename
              end
          end
      end
  end.

(** Whether the entry of the file is created in the zip file: the four
    calls before the copy succeed. *)
Definition entryCreated (osStat osOpen FileInfoHeader CreateHeader :
                           string -> option string)
    (ToSlash : string -> string) (filename : string) : bool :=
  match osStat filename, osOpen filename, FileInfoHeader filename,
        CreateHeader (ScriptOutput.entryName ToSlash filename) with
  | None, None, None, None => true
  | _, _, _, _ => false
  end.

(** The envelope [addFileToFileList] receives for a script output. *)
Definition scriptEnvelope (filename : string) : FileCopyEnvelope :=
  {| Path := filename; Stream := None; Identifier := "ScriptOutput/";
     duplicateCount := 0 |}.

(** A script with one additional file, which cannot be copied. *)
Definition scriptRun : ScriptOutput.ScriptData :=
  {| ScriptOutput.OutputPath := "run.out";
     ScriptOutput.AddtlFiles := ["extra.csv"; "later.txt"] |}.

Definition copyFailsOnExtra (filename : string) : option string :=
  if String.eqb filename "extra.csv" then Some "short write" else None.

Definition noError (name : string) : option string := None.

(** The walk of an include path that fails on its second file. *)
Definition brokenInclude : FileSystem :=
  {| Stat := fun _ => StatOk;
     Entries := fun _ =>
       [{| walkPath := "inc/a.bin";
           walkInfo := {| IsDir := false; Size := 10 |}; walkErr := None |};
        {| walkPath := "inc/b.bin";
           walkInfo := {| IsDir := false; Size := 20 |};
           walkErr := Some "permission denied" |};
        {| walkPath := "inc/c.bin";
           walkInfo := {| IsDir := false; Size := 5000000000 |};
           walkErr := None |}] |}.

(** An include path of exactly 3,999,999,999 bytes. *)
Definition limitInclude : FileSystem :=
  {| Stat := fun _ => StatOk;
     Entries := fun _ =>
       [{| walkPath := "inc/a.bin";
           walkInfo := {| IsDir := false; Size := 3999999999 |};
           walkErr := None |}] |}.

(** A kubectl that answers the logs of the pods. *)
Definition kubectlLogs (bin : string) (args : list string) : string + string :=
  inl "pod/a line 1".

Definition oneLine (blob : string) : list string := [blob].

End MoreSamples.

(** * Properties *)

Module StringFacts.

Lemma str_app_cons (x : ascii) (a b : string) :
  String x a +:+ b = String x (a +:+ b).
Proof. reflexivity. Qed.

Lemma str_app_nil_l (a : string) : "" +:+ a = a.
Proof. reflexivity. Qed.

Lemma str_app_assoc (a b c : string) : (a +:+ b) +:+ c = a +:+ (b +:+ c).
Proof.
  induction a as [|x a IH]; [done |]. by rewrite !str_app_cons, IH.
Qed.

Lemma str_app_nil_r (a : string) : a +:+ "" = a.
Proof.
  induction a as [|x a IH]; [done |]. by rewrite str_app_cons, IH.
Qed.

Lemma str_length_app (a b : string) :
  String.length (a +:+ b) = (String.length a + String.length b)%nat.
Proof.
  induction a as [|x a IH]; [done |]. rewrite str_app_cons. cbn. by rewrite IH.
Qed.

Lemma length_pos_iff (s : string) : (0 <? String.length s)%nat = true ↔ s ≠ "".
Proof. destruct s; simpl; split; done. Qed.

End StringFacts.

Module InitSystemProps.
Import Tasks GoStrings Regexp InitSystem StringFacts Samples.

Example parse_sysv : parseInitSystem "/sbin/init" = "SysV".
Proof. reflexivity. Qed.
Example parse_systemd : parseInitSystem "/lib/systemd/systemd" = "Systemd".
Proof. vm_compute. reflexivity. Qed.
Example parse_upstart : parseInitSystem "/sbin/upstart" = "Upstart".
Proof. vm_compute. reflexivity. Qed.
Example parse_busybox : parseInitSystem "/bin/busybox" = "OpenRC Busybox integration".
Proof. vm_compute. reflexivity. Qed.
Example parse_unknown : parseInitSystem "/usr/bin/runit" = "".
Proof. vm_compute. reflexivity. Qed.
Example parse_systemd_inner : parseInitSystem "/systemd/init" = "".
Proof. vm_compute. reflexivity. Qed.

(** [parseInitSystem] answers a known init system or the empty string. *)
Lemma parseInitSystem_range initPath :
  parseInitSystem initPath = "" ∨ parseInitSystem initPath ∈ knownInitSystems.
Proof.
  unfold parseInitSystem, knownInitSystems.
  repeat case_match; first [ by left | right; set_solver ].
Qed.

Lemma known_not_empty s : s ∈ knownInitSystems → String.eqb s "" = false.
Proof.
  unfold knownInitSystems. intros H.
  repeat (apply elem_of_cons in H as [-> | H]; [reflexivity |]).
  by apply elem_of_nil in H.
Qed.

(** Whatever a regex consumes, its continuation is handed a suffix. *)
Lemma run_suffix r : ∀ s k,
  run r s k = true → ∃ pre t, s = pre +:+ t ∧ k t = true.
Proof.
  induction r as [ |c| |a IHa b IHb|a IHa|a IHa| ]; intros s k H; simpl in H.
  - by exists "", s.
  - destruct s as [|d s']; [done |].
    apply andb_true_iff in H as [_ H]. by exists (String d ""), s'.
  - destruct s as [|d s']; [done |].
    apply andb_true_iff in H as [_ H]. by exists (String d ""), s'.
  - apply IHa in H as (p1 & t1 & -> & H).
    apply IHb in H as (p2 & t2 & -> & H).
    exists (p1 +:+ p2), t2. by rewrite str_app_assoc.
  - revert H. generalize (String.length s). intros fuel. revert s.
    induction fuel as [|fuel IH]; intros s H; simpl in H.
    + rewrite orb_false_r in H. by exists "", s.
    + apply orb_true_iff in H as [H | H]; [by exists "", s |].
      apply IHa in H as (p1 & t1 & -> & H).
      apply andb_true_iff in H as [_ H].
      apply IH in H as (p2 & t2 & -> & H).
      exists (p1 +:+ p2), t2. by rewrite str_app_assoc.
  - by apply IHa.
  - destruct s; [by exists "", "" | done].
Qed.

(** A literal consumes exactly itself. *)
Lemma run_Lits lit : ∀ s k,
  run (Lits lit) s k = true ↔ ∃ rest, s = lit +:+ rest ∧ k rest = true.
Proof.
  induction lit as [|c lit IH]; intros s k; cbn [Lits run].
  - split; [by exists s | by intros (? & -> & ?)].
  - destruct s as [|d s']; [split; [done | by intros (? & ? & ?)] |].
    rewrite andb_true_iff, IH, Ascii.eqb_eq. split.
    + intros (-> & rest & -> & ?). by exists rest.
    + intros (rest & E & ?). rewrite str_app_cons in E.
      injection E as -> ->. eauto.
Qed.

Lemma Match_suffix r : ∀ s,
  Match r s = true ↔ ∃ pre t, s = pre +:+ t ∧ run r t (fun _ => true) = true.
Proof.
  induction s as [|c s IH]; cbn [Match].
  - rewrite orb_false_r. split; [by exists "", "" |].
    intros (pre & t & E & H). destruct pre; [| done].
    rewrite str_app_nil_l in E. by subst.
  - rewrite orb_true_iff, IH. split.
    + intros [H | (pre & t & -> & H)]; [by exists "", (String c s) |].
      by exists (String c pre), t.
    + intros ([|d pre] & t & E & H).
      * left. rewrite str_app_nil_l in E. by subst.
      * right. rewrite str_app_cons in E. injection E as -> ->.
        by exists pre, t.
Qed.

(** The search for [.*(lit$)] succeeds exactly on the strings that end in
    [lit]. *)
Lemma Match_dotstar_lit_end lit s :
  Match (Cat (Star AnyCharNotNL) (Capture (Cat (Lits lit) EndText))) s = true
  ↔ ∃ pre, s = pre +:+ lit.
Proof.
  rewrite Match_suffix. split.
  - intros (p0 & t & -> & H). cbn [run] in H.
    change (run (Star AnyCharNotNL) t
              (fun s' => run (Lits lit) s' (fun s'' => run EndText s'' (fun _ => true)))
            = true) in H.
    apply run_suffix in H as (p1 & u & -> & H).
    apply run_Lits in H as (rest & -> & H).
    destruct rest; [| done].
    exists (p0 +:+ p1). rewrite str_app_nil_r. by rewrite str_app_assoc.
  - intros (pre & ->). exists pre, lit. split; [done |].
    cbn [run]. destruct (String.length lit); cbn [starLoop];
      apply orb_true_iff; left; apply run_Lits; exists "";
      (split; [by rewrite str_app_nil_r | done]).
Qed.

Lemma regexSysD_ends s :
  Match regexSysD s = true ↔ ∃ pre, s = pre +:+ "/systemd".
Proof. apply Match_dotstar_lit_end. Qed.

Lemma regexUpstart_ends s :
  Match regexUpstart s = true ↔ ∃ pre, s = pre +:+ "upstart".
Proof. apply Match_dotstar_lit_end. Qed.

(** C8. For every operating system and every outcome of evaluating the
    [/sbin/init] symlink, [Execute] answers Status None or Info, never
    Success, Warning, Failure or Error.  The Status is Info exactly when the
    symlink is resolved (the system is neither Windows nor Mac OS and the
    evaluation succeeds) and the resolved path parses to one of the known
    init systems, which is then the Payload. *)
Theorem C8_init_system_status (p : BaseEnvInitSystem)
    (upstream : gmap string Result) :
  let r := Execute p upstream in
  (Status_ r = None_ ∨ Status_ r = Info)
  ∧ (Status_ r = Info ↔
       runtimeOs p ≠ "windows" ∧ runtimeOs p ≠ "darwin"
       ∧ ∃ initPath, evalSymlink p "/sbin/init" = inl initPath
                     ∧ parseInitSystem initPath ∈ knownInitSystems)
  ∧ (∀ initPath, Status_ r = Info →
       evalSymlink p "/sbin/init" = inl initPath →
       Payload_ r = PString (parseInitSystem initPath)).
Proof.
  unfold Execute.
  destruct (String.eqb_spec (runtimeOs p) "windows") as [Hw | Hw];
    [simpl; split_and!; [by left | split; [done | tauto] | done] |].
  destruct (String.eqb_spec (runtimeOs p) "darwin") as [Hd | Hd];
    [simpl; split_and!; [by left | split; [done | tauto] | done] |].
  destruct (evalSymlink p "/sbin/init") as [initPath | err]; simpl.
  - destruct (parseInitSystem_range initPath) as [E | Hk].
    + rewrite E. simpl. split_and!; [by left | | done].
      split; [done |]. intros (_ & _ & q & [= <-] & Hq).
      rewrite E in Hq. apply known_not_empty in Hq. done.
    + rewrite (known_not_empty _ Hk). simpl. split_and!; [by right | |].
      * split; [| done]. intros _. split_and!; [done | done |]. by exists initPath.
      * by intros q _ [= <-].
  - split_and!; [by left | | done].
    split; [done |]. by intros (_ & _ & q & ? & _).
Qed.

Lemma C8_init_system_status_witness :
  Payload_ (Execute linuxSystemd ∅) = PString "Systemd".
Proof.
  destruct (C8_init_system_status linuxSystemd ∅) as (_ & _ & H).
  exact (H "/lib/systemd/systemd" eq_refl eq_refl).
Defined.

End InitSystemProps.

Module AppNameProps.
Import Tasks GoStrings Fmt AppName StringFacts Samples.

Section Props.
Variable HasPayload : Result -> bool.
Variable FindKey : ValidateBlob -> string -> list ValidateBlob.
Variable IsLeaf : ValidateBlob -> bool.
Variable Value : ValidateBlob -> string.
Variable AssertionErrorSummary : string.

#[local] Abbreviation Execute :=
  (Execute HasPayload FindKey IsLeaf Value AssertionErrorSummary).

Lemma getAppNameFromEnvVar_found upstream envVars name :
  Status_ (upstreamAt upstream "Base/Env/CollectEnvVars") = Info →
  Payload_ (upstreamAt upstream "Base/Env/CollectEnvVars") = PMapStringString envVars →
  envVars !! "NEW_RELIC_APP_NAME" = Some name →
  getAppNameFromEnvVar upstream = {| Name := name; FilePath := "NEW_RELIC_APP_NAME" |}.
Proof.
  intros Hs Hp Hn. unfold getAppNameFromEnvVar, appNameEnvVarKey.
  rewrite Hs, Hp, Hn. by rewrite decide_True.
Qed.

(** C9. When the upstream result of Base/Env/CollectEnvVars has Status Info
    and its payload maps NEW_RELIC_APP_NAME to a non-empty string, [Execute]
    answers Status Success with a one-element payload carrying exactly that
    name; the answer does not depend on the upstream results of
    Base/Env/CollectSysProps and Base/Config/Validate. *)
Theorem C9_env_var_app_name_wins (upstream : gmap string Result)
    (envVars : gmap string string) (name : string) :
  Status_ (upstreamAt upstream "Base/Env/CollectEnvVars") = Info →
  Payload_ (upstreamAt upstream "Base/Env/CollectEnvVars") = PMapStringString envVars →
  envVars !! "NEW_RELIC_APP_NAME" = Some name →
  name ≠ "" →
  Execute upstream =
    {| Status_ := Success;
       Summary := "A unique application name was found through the New Relic App name environment variable: " +:+ name;
       URL := "";
       Payload_ := PAppNameInfos [{| Name := name; FilePath := "NEW_RELIC_APP_NAME" |}] |}
  ∧ ∀ sysProps validate : Result,
      Execute (<["Base/Env/CollectSysProps" := sysProps]>
                 (<["Base/Config/Validate" := validate]> upstream))
      = Execute upstream.
Proof.
  intros Hs Hp Hn Hne.
  assert (Hrun : ∀ up,
    upstreamAt up "Base/Env/CollectEnvVars"
      = upstreamAt upstream "Base/Env/CollectEnvVars" →
    Execute up =
      {| Status_ := Success;
         Summary := "A unique application name was found through the New Relic App name environment variable: " +:+ name;
         URL := "";
         Payload_ := PAppNameInfos [{| Name := name; FilePath := "NEW_RELIC_APP_NAME" |}] |}).
  { intros up Hup. unfold AppName.Execute.
    rewrite (getAppNameFromEnvVar_found up envVars name) by (rewrite ?Hup; done).
    cbn [Name]. apply length_pos_iff in Hne. by rewrite Hne. }
  split; [by apply Hrun |].
  intros sysProps validate. rewrite (Hrun upstream eq_refl).
  apply Hrun. unfold upstreamAt. by rewrite !lookup_insert_ne.
Qed.

End Props.

Lemma C9_env_var_app_name_wins_witness :
  Status_ (AppName.Execute (fun _ => true) (fun _ _ => []) (fun _ => true)
             (fun _ => "") "assertion" sampleUpstream) = Success.
Proof.
  pose proof (C9_env_var_app_name_wins (fun _ => true) (fun _ _ => [])
                (fun _ => true) (fun _ => "") "assertion" sampleUpstream
                {["NEW_RELIC_APP_NAME" := "billing"]} "billing"
                eq_refl eq_refl eq_refl ltac:(discriminate)) as [H _].
  rewrite H. reflexivity.
Defined.

End AppNameProps.

Module DotNetAgentProps.
Import Tasks GoStrings Fmt DotNetAgent Samples.

Section Props.
Variable NoAgentDetectedSummary : string.
Variable NoAgentUpstreamSummary : string.
Variable UpstreamFailedSummary : string.
Variable AssertionErrorSummary : string.
Variable FindKey : ValidateBlob -> string -> list ValidateBlob.
Variable EqualFold : string -> string -> bool.
Variable CaseInsensitiveStringContains : string -> string -> bool.
Variable FindStringInFile : string -> string -> bool.

#[local] Abbreviation Execute :=
  (Execute NoAgentDetectedSummary NoAgentUpstreamSummary UpstreamFailedSummary
           AssertionErrorSummary FindKey EqualFold
           CaseInsensitiveStringContains FindStringInFile).

(** C10. When the upstream result of DotNet/Agent/Installed has a Status
    other than Success, [Execute] answers Status None; its summary is the
    no-agent summary when the upstream summary is the no-agent-detected one
    and the upstream-failed summary otherwise; the answer does not depend on
    the upstream result of Base/Config/Validate. *)
Theorem C10_agent_not_installed (upstream : gmap string Result) :
  Status_ (upstreamAt upstream "DotNet/Agent/Installed") ≠ Success →
  Execute upstream =
    {| Status_ := None_;
       Summary :=
         (if String.eqb (Summary (upstreamAt upstream "DotNet/Agent/Installed"))
                        NoAgentDetectedSummary
          then NoAgentUpstreamSummary else UpstreamFailedSummary)
         +:+ "DotNet/Agent/Installed";
       URL := ""; Payload_ := PNil |}
  ∧ ∀ validate : Result,
      Execute (<["Base/Config/Validate" := validate]> upstream) = Execute upstream.
Proof.
  intros Hs.
  assert (Hrun : ∀ up,
    upstreamAt up "DotNet/Agent/Installed"
      = upstreamAt upstream "DotNet/Agent/Installed" →
    Execute up =
      {| Status_ := None_;
         Summary :=
           (if String.eqb (Summary (upstreamAt upstream "DotNet/Agent/Installed"))
                          NoAgentDetectedSummary
            then NoAgentUpstreamSummary else UpstreamFailedSummary)
           +:+ "DotNet/Agent/Installed";
         URL := ""; Payload_ := PNil |}).
  { intros up Hup. unfold DotNetAgent.Execute. rewrite Hup.
    rewrite bool_decide_eq_false_2 by done. cbn [negb].
    by destruct (String.eqb _ _). }
  split; [by apply Hrun |].
  intros validate. rewrite (Hrun upstream eq_refl).
  apply Hrun. unfold upstreamAt. by rewrite lookup_insert_ne.
Qed.

End Props.

Lemma C10_agent_not_installed_witness :
  DotNetAgent.Execute "no agent" "No agent upstream: " "Upstream failed: "
    "assertion" (fun _ _ => []) String.eqb (fun _ _ => false) (fun _ _ => false)
    notInstalledUpstream
  = {| Status_ := None_;
       Summary := "No agent upstream: DotNet/Agent/Installed";
       URL := ""; Payload_ := PNil |}.
Proof.
  pose proof (C10_agent_not_installed "no agent" "No agent upstream: "
                "Upstream failed: " "assertion" (fun _ _ => []) String.eqb
                (fun _ _ => false) (fun _ _ => false) notInstalledUpstream
                ltac:(discriminate)) as [H _].
  rewrite H. reflexivity.
Defined.

End DotNetAgentProps.

Module CollectorProps.
Import Tasks GoStrings Fmt Collector CollectorSpec Samples StringFacts.

Section Invariants.
Variable storeName : string -> nat -> string.
Variable FileExists : string -> bool.
Variable IsExecutable : FileCopyEnvelope -> bool + string.

#[local] Abbreviation StoreName := (StoreName storeName).
#[local] Abbreviation nameLoop := (nameLoop storeName).
#[local] Abbreviation processEnvelope :=
  (processEnvelope storeName FileExists IsExecutable).
#[local] Abbreviation processResult :=
  (processResult storeName FileExists IsExecutable).
#[local] Abbreviation ProcessFilesChannel :=
  (ProcessFilesChannel storeName FileExists IsExecutable).
#[local] Abbreviation Inv := (Inv storeName).

Lemma Inv_initial : Inv initialState.
Proof.
  split; simpl; try (intros e H; by apply elem_of_nil in H).
  - constructor.
  - intros i j e1 e2 _ H. by rewrite lookup_nil in H.
Qed.

Lemma accepted_same (taskId : string) (e : FileCopyEnvelope) :
  let e' := if String.eqb (Identifier e) "" then setIdentifier taskId e else e in
  StoreName e' = StoreName e ∧ Path e' = Path e ∧ Stream e' = Stream e.
Proof. simpl. by destruct (String.eqb _ _). Qed.

Lemma nameLoop_Inv fuel : ∀ i taskId e st,
  Inv st →
  (Stream e = None → Path e ∉ pathList st) →
  Inv (nameLoop fuel i taskId e st).
Proof.
  induction fuel as [|fuel IH]; intros i taskId e st HI Hfresh; [done |].
  cbn [Collector.nameLoop]. destruct (i <? 50)%nat; [| done].
  unfold mapContains. case_bool_decide as Hin; cbn [negb]; [by apply IH |].
  destruct (accepted_same taskId e) as (En & Ep & Es).
  set (e' := if String.eqb (Identifier e) "" then setIdentifier taskId e else e) in *.
  destruct HI as [Hn Hp Hd Ho]. split; cbn [fileList pathList taskFiles].
  - intros x Hx. apply elem_of_app in Hx as [Hx | Hx].
    + apply elem_of_union_r. by apply Hn.
    + apply list_elem_of_singleton in Hx as ->. rewrite En.
      apply elem_of_union_l. by apply elem_of_singleton.
  - intros x Hx. apply elem_of_app in Hx as [Hx | Hx].
    + apply elem_of_union_r. by apply Hp.
    + apply list_elem_of_singleton in Hx as ->. rewrite Ep.
      apply elem_of_union_l. by apply elem_of_singleton.
  - rewrite map_app. apply NoDup_app. split_and!; [done | | ].
    + intros n Hn1 Hn2. cbn in Hn2. apply list_elem_of_singleton in Hn2 as ->.
      apply list_elem_of_fmap in Hn1 as (x & Ex & Hx).
      rewrite En in Ex. apply Hin. rewrite Ex. by apply Hn.
    + cbn. apply NoDup_singleton.
  - intros a b e1 e2 Hab H1 H2 Epath.
    destruct (decide (b < length (taskFiles st))%nat) as [Hb | Hb].
    + rewrite lookup_app_l in H1 by lia. rewrite lookup_app_l in H2 by lia.
      exact (Ho a b e1 e2 Hab H1 H2 Epath).
    + assert (b = length (taskFiles st)) as ->.
      { apply lookup_lt_Some in H2. rewrite length_app in H2. simpl in H2. lia. }
      rewrite lookup_app_l in H1 by lia.
      rewrite list_lookup_middle in H2 by done. injection H2 as <-.
      rewrite Es. intros Hnone. apply (Hfresh Hnone).
      rewrite <- Ep, <- Epath. apply Hp. by eapply list_elem_of_lookup_2.
Qed.

Lemma processEnvelope_Inv taskId st e :
  Inv st → Inv (processEnvelope taskId st e).
Proof.
  intros HI. unfold Collector.processEnvelope.
  destruct (_ && negb _); [done |].
  destruct (IsExecutable e) as [[|] | err]; [done | | done].
  destruct (bool_decide (Stream e = None) && mapContains (pathList st) (Path e))
    eqn:Hguard; [done |].
  apply nameLoop_Inv; [done |].
  intros Hnone Hin. apply andb_false_iff in Hguard as [Hg | Hg].
  - by apply bool_decide_eq_false in Hg.
  - unfold mapContains in Hg. by apply bool_decide_eq_false in Hg.
Qed.

Lemma fold_Inv {A} (f : CollectorState → A → CollectorState) (l : list A) :
  (∀ st a, Inv st → Inv (f st a)) →
  ∀ st, Inv st → Inv (List.fold_left f l st).
Proof.
  intros Hf. induction l as [|a l IH]; intros st HI; simpl; [done |].
  apply IH. by apply Hf.
Qed.

Lemma ProcessFilesChannel_Inv (channel : list FilesResult) :
  Inv (List.fold_left processResult channel initialState).
Proof.
  apply fold_Inv; [| apply Inv_initial].
  intros st r HI. unfold Collector.processResult.
  apply fold_Inv; [| done]. intros. by apply processEnvelope_Inv.
Qed.

(** Whatever [StoreName] computes, the accepted envelopes have pairwise
    distinct archive names. *)
Lemma accepted_names_distinct (channel : list FilesResult) :
  NoDup (List.map StoreName (ProcessFilesChannel channel)).
Proof. apply (inv_nodup storeName), ProcessFilesChannel_Inv. Qed.

(** A file-backed envelope whose Path is recorded is dropped. *)
Lemma processEnvelope_known_path taskId st e :
  Stream e = None → Path e ∈ pathList st → processEnvelope taskId st e = st.
Proof.
  intros Hs Hp. unfold Collector.processEnvelope, mapContains.
  rewrite (bool_decide_eq_true_2 _ Hs), (bool_decide_eq_true_2 _ Hp).
  cbn [andb]. destruct (negb _); [done |].
  by destruct (IsExecutable e) as [[|] | err].
Qed.

(** C3 (amended). Of two accepted envelopes with the same Path, the later
    one carries a Stream: an envelope without a Stream whose Path was
    accepted earlier in the run is dropped, so at most one envelope without
    a Stream is accepted per Path. *)
Theorem C3_path_dedup_file_backed (channel : list FilesResult)
    (i j : nat) (e1 e2 : FileCopyEnvelope) :
  (i < j)%nat →
  ProcessFilesChannel channel !! i = Some e1 →
  ProcessFilesChannel channel !! j = Some e2 →
  Path e1 = Path e2 →
  Stream e2 ≠ None.
Proof. apply (inv_once storeName), ProcessFilesChannel_Inv. Qed.

End Invariants.

(** Envelopes of one logical name: what the loop of 49 attempts accepts. *)
Section SameNames.
Variable storeName : string -> nat -> string.
Variable FileExists : string -> bool.
Variable IsExecutable : FileCopyEnvelope -> bool + string.
Variable taskId : string.

#[local] Abbreviation nameLoop := (nameLoop storeName).
#[local] Abbreviation processEnvelope :=
  (processEnvelope storeName FileExists IsExecutable).

(** With the first 49 names taken, the loop gives up. *)
Lemma nameLoop_gives_up fuel : ∀ e st,
  (∀ c, (c < 49)%nat → storeName (Path e) c ∈ fileList st) →
  nameLoop fuel (duplicateCount e + 1) taskId e st = st.
Proof.
  induction fuel as [|fuel IH]; intros e st Htaken; [done |].
  cbn [Collector.nameLoop].
  destruct (Nat.ltb_spec (duplicateCount e + 1) 50) as [Hi | Hi]; [| done].
  unfold mapContains, StoreName.
  rewrite bool_decide_eq_true_2 by (apply Htaken; lia). cbn [negb].
  replace (duplicateCount e + 1 + 1)%nat
    with (duplicateCount (IncrementDuplicateCount e) + 1)%nat by (cbn; lia).
  apply (IH (IncrementDuplicateCount e)). exact Htaken.
Qed.

(** With the names of the counters below [m] taken and that of [m] free,
    [m] below 49, the loop accepts the envelope under the name of [m]. *)
Lemma nameLoop_accepts fuel : ∀ e st m,
  (duplicateCount e ≤ m)%nat → (m < 49)%nat →
  (50 ≤ fuel + (duplicateCount e + 1))%nat →
  (∀ c, (c < m)%nat → storeName (Path e) c ∈ fileList st) →
  storeName (Path e) m ∉ fileList st →
  ∃ e', duplicateCount e' = m ∧ Path e' = Path e ∧
    nameLoop fuel (duplicateCount e + 1) taskId e st =
      {| fileList := {[storeName (Path e) m]} ∪ fileList st;
         pathList := {[Path e]} ∪ pathList st;
         taskFiles := taskFiles st ++ [e'] |}.
Proof.
  induction fuel as [|fuel IH]; intros e st m Hd Hm Hfuel Htaken Hfree; [lia |].
  cbn [Collector.nameLoop].
  destruct (Nat.ltb_spec (duplicateCount e + 1) 50) as [Hi | Hi]; [| lia].
  unfold mapContains, StoreName.
  destruct (decide (duplicateCount e = m)) as [E | E].
  - rewrite E, bool_decide_eq_false_2 by done. cbn [negb].
    eexists. split_and!; [| | reflexivity];
      destruct (String.eqb _ _); cbn; done.
  - rewrite bool_decide_eq_true_2 by (apply Htaken; lia). cbn [negb].
    replace (duplicateCount e + 1 + 1)%nat
      with (duplicateCount (IncrementDuplicateCount e) + 1)%nat by (cbn; lia).
    destruct (IH (IncrementDuplicateCount e) st m) as (e' & ? & ? & ->);
      cbn [IncrementDuplicateCount duplicateCount Path]; try done; try lia.
    by exists e'.
Qed.

Variable name : nat -> string.
Hypothesis name_inj : ∀ c d, name c = name d → c = d.

#[local] Abbreviation colliding :=
  (colliding storeName FileExists IsExecutable name).

Lemma fold_colliding : ∀ es st m,
  (m ≤ 49)%nat →
  (∀ c, name c ∈ fileList st ↔ (c < m)%nat) →
  Forall colliding es →
  NoDup (List.map Path es) →
  (∀ e, e ∈ es → Path e ∉ pathList st) →
  length (taskFiles (List.fold_left (processEnvelope taskId) es st))
  = (length (taskFiles st) + length es `min` (49 - m))%nat.
Proof.
  induction es as [|e es IH]; intros st m Hm Hnames Hall Hnd Hfresh.
  - cbn. lia.
  - apply Forall_cons in Hall as [(Hname & Hcount & Hex & Hexe) Hall].
    cbn [List.map] in Hnd. apply NoDup_cons in Hnd as [Hne Hnd].
    cbn [List.fold_left].
    assert (Hstep : processEnvelope taskId st e
                    = nameLoop 50 (duplicateCount e + 1) taskId e st).
    { unfold Collector.processEnvelope. rewrite Hex, Hexe, Hcount.
      rewrite andb_false_r. unfold mapContains.
      rewrite (bool_decide_eq_false_2 (Path e ∈ pathList st))
        by (apply Hfresh; by left).
      by rewrite andb_false_r. }
    rewrite Hstep. destruct (decide (m < 49)%nat) as [Hlt | Hge].
    + destruct (nameLoop_accepts 50 e st m) as (e' & _ & _ & ->);
        [lia | done | lia | | |].
      { intros c Hc. rewrite Hname. by apply Hnames. }
      { rewrite Hname, Hnames. lia. }
      rewrite (IH _ (S m)); cbn [fileList pathList taskFiles length].
      * rewrite length_app. cbn [length]. lia.
      * lia.
      * intros c. rewrite Hname, elem_of_union, elem_of_singleton, Hnames.
        split; [intros [E%name_inj | ?]; lia |].
        intros Hc. destruct (decide (c = m)) as [-> | ?]; [by left | right; lia].
      * done.
      * done.
      * intros x Hx. rewrite elem_of_union, elem_of_singleton.
        intros [E | Hin].
        -- apply Hne. rewrite <- E. apply list_elem_of_fmap. by exists x.
        -- revert Hin. apply Hfresh. by right.
    + assert (m = 49%nat) as -> by lia.
      rewrite nameLoop_gives_up.
      * rewrite (IH _ 49%nat); try done.
        -- cbn [length]. lia.
        -- intros x Hx. apply Hfresh. by right.
      * intros c Hc. rewrite Hname. by apply Hnames.
Qed.

(** Of [n] envelopes of one logical name, [n] or 49 are accepted, whichever
    is less. *)
Lemma same_names_accepted (es : list FileCopyEnvelope) :
  Forall colliding es →
  NoDup (List.map Path es) →
  length (ProcessFilesChannel storeName FileExists IsExecutable
            [{| TaskIdentifier := taskId; FilesToCopy := es |}])
  = (length es `min` 49)%nat.
Proof.
  intros Hall Hnd. unfold ProcessFilesChannel, processResult.
  cbn [List.fold_left FilesToCopy TaskIdentifier].
  rewrite (fold_colliding es initialState 0); cbn [initialState taskFiles
    fileList pathList length]; try done; try lia.
  intros c. split; [by intros ?%elem_of_empty | lia].
Qed.

End SameNames.

Lemma suffixStoreName_inj path c d :
  suffixStoreName path c = suffixStoreName path d → c = d.
Proof.
  unfold suffixStoreName. destruct c as [|c], d as [|d]; intros E; [done | | |].
  - apply (f_equal String.length) in E. rewrite !str_length_app in E.
    cbn in E. lia.
  - apply (f_equal String.length) in E. rewrite !str_length_app in E.
    cbn in E. lia.
  - apply String.app_inj, String.app_inj in E. by apply pretty_nat_inj in E.
Qed.

(** Of [n] files of one file name, found in [n] directories, [n] or 49 are
    accepted, whichever is less. *)
Lemma same_file_name_accepted (taskId base : string) (es : list FileCopyEnvelope) :
  Forall (fun e => baseFrom "" (Path e) = baseFrom "" base
                   ∧ duplicateCount e = 0%nat) es →
  NoDup (List.map Path es) →
  length (ProcessFilesChannel suffixStoreName (fun _ => true) (fun _ => inl false)
            [{| TaskIdentifier := taskId; FilesToCopy := es |}])
  = (length es `min` 49)%nat.
Proof.
  intros Hall Hnd.
  apply (same_names_accepted _ _ _ _ (suffixStoreName base)); [| | done].
  - intros c d. apply suffixStoreName_inj.
  - eapply Forall_impl; [exact Hall |]. intros e [Hb Hc].
    split_and!; try done. intros c. unfold suffixStoreName. by rewrite Hb.
Qed.

(** C2. Sixty envelopes of one logical name: the loop
    [for i := 1; i < 50; i++] makes 49 attempts, not the 50 its comment
    announces, so 49 envelopes are accepted, under the pairwise distinct
    names [out.log], [out.log_1], ..., [out.log_48]; the fiftieth and the
    later ones are dropped. *)
Theorem C2_sixty_same_names_49_accepted :
  let out := ProcessFilesChannel suffixStoreName (fun _ => true)
               (fun _ => inl false) sixty in
  length out = 49%nat
  ∧ List.map duplicateCount out = seq 0 49
  ∧ List.map Path out = List.map Path (sameNameEnvelopes 49).
Proof. vm_compute. done. Qed.

(** C3, as stated, fails: both envelopes of [twoStreams] are accepted
    though their Paths are equal. *)
Lemma C3_repeated_path_accepted_twice :
  ¬ NoDup (List.map Path
             (ProcessFilesChannel suffixStoreName (fun _ => true)
                (fun _ => inl false) twoStreams)).
Proof.
  vm_compute. intros H. apply NoDup_cons in H as [H _].
  apply H. by left.
Qed.

Lemma C3_path_dedup_file_backed_witness :
  Some ["line"] ≠ @None (list string).
Proof.
  exact (C3_path_dedup_file_backed suffixStoreName (fun _ => true)
           (fun _ => inl false) mixed 0 1
           {| Path := "/etc/nr.yml"; Stream := None;
              Identifier := "Base/Log/Copy"; duplicateCount := 0 |}
           {| Path := "/etc/nr.yml"; Stream := Some ["line"];
              Identifier := "Cmd"; duplicateCount := 1 |}
           ltac:(lia) eq_refl eq_refl eq_refl).
Defined.

End CollectorProps.

Module GoUtf8Props.
Import GoUtf8 StringFacts.

Lemma take_drop_bytes n : ∀ s, takeBytes n s +:+ dropBytes n s = s.
Proof.
  induction n as [|n IH]; intros [|c s]; try done.
  cbn [takeBytes dropBytes]. by rewrite str_app_cons, IH.
Qed.

Lemma length_dropBytes n : ∀ s,
  String.length (dropBytes n s) = (String.length s - n)%nat.
Proof.
  induction n as [|n IH]; intros [|c s]; try done. cbn. apply IH.
Qed.

Lemma length_takeBytes n : ∀ s,
  String.length (takeBytes n s) = (n `min` String.length s)%nat.
Proof.
  induction n as [|n IH]; intros [|c s]; try done. cbn. by rewrite IH.
Qed.

(** A rune takes at least one byte. *)
Lemma runeWidth_pos c s : (1 ≤ runeWidth (String c s))%nat.
Proof.
  unfold runeWidth. repeat case_match; lia.
Qed.

(** Cutting to [prec] runes leaves a string of at most [prec] bytes whole. *)
Lemma truncateString_short prec : ∀ s,
  (String.length s ≤ prec)%nat → truncateString prec s = s.
Proof.
  induction prec as [|prec IH]; intros [|c s] Hlen; try done.
  - cbn in Hlen. lia.
  - cbn [truncateString]. pose proof (runeWidth_pos c s) as Hw.
    rewrite IH; [apply take_drop_bytes |].
    rewrite length_dropBytes. cbn [String.length] in *. lia.
Qed.

(** Cutting keeps a prefix. *)
Lemma truncateString_prefix prec : ∀ s,
  ∃ rest, s = truncateString prec s +:+ rest.
Proof.
  induction prec as [|prec IH]; intros s; [by exists s |].
  destruct s as [|c s]; [by exists "" |]. cbn [truncateString].
  destruct (IH (dropBytes (runeWidth (String c s)) (String c s))) as [rest E].
  exists rest. rewrite str_app_assoc, <- E. by rewrite take_drop_bytes.
Qed.

(** A cut that shortens found more than [prec] bytes. *)
Lemma truncateString_shortens prec s :
  truncateString prec s ≠ s → (prec < String.length s)%nat.
Proof.
  intros H. destruct (decide (String.length s ≤ prec)%nat) as [Hle |]; [| lia].
  by apply truncateString_short in Hle.
Qed.

Lemma truncateString_ASCII prec : ∀ s,
  isASCII s = true → truncateString prec s = takeBytes prec s.
Proof.
  induction prec as [|prec IH]; intros [|c s] H; try done.
  cbn [isASCII] in H. apply andb_true_iff in H as [Hc Hs].
  cbn [truncateString takeBytes].
  assert (runeWidth (String c s) = 1%nat) as ->.
  { unfold runeWidth, firstInfo. apply N.ltb_lt in Hc.
    destruct (N.ltb_spec (N_of_ascii c) 194); [done | lia]. }
  cbn [takeBytes dropBytes]. rewrite str_app_cons, str_app_nil_l. by rewrite IH.
Qed.

Lemma takeBytes_all n : ∀ s, takeBytes n s = s ↔ (String.length s ≤ n)%nat.
Proof.
  intros s. split.
  - intros E. rewrite <- E, length_takeBytes. lia.
  - revert s. induction n as [|n IH]; intros [|c s] H; try done.
    + cbn in H. lia.
    + cbn [takeBytes]. rewrite IH; [done |]. cbn in H. lia.
Qed.

End GoUtf8Props.

Module AggregatorProps.
Import Tasks GoStrings Fmt GoUtf8 Logger Aggregator AggregatorSpec StringFacts
  GoUtf8Props Samples.

Lemma length_replaceNewlines s :
  String.length (replaceNewlines s) = String.length s.
Proof. induction s as [|c s IH]; [done |]. cbn. by rewrite IH. Qed.

Lemma isASCII_replaceNewlines s :
  isASCII s = true → isASCII (replaceNewlines s) = true.
Proof.
  induction s as [|c s IH]; [done |]. cbn [isASCII replaceNewlines].
  intros [Hc Hs]%andb_true_iff. rewrite (IH Hs), andb_true_r.
  by destruct (Ascii.eqb c "010").
Qed.

(** No newline is left in a flattened summary. *)
Lemma replaceNewlines_flat s :
  GoStrings.Contains (replaceNewlines s) newline = false.
Proof.
  induction s as [|c s IH]; [done |].
  cbn [replaceNewlines GoStrings.Contains]. rewrite IH, orb_false_r.
  unfold newline. cbn [HasPrefix].
  destruct (Ascii.eqb_spec c "010") as [-> | Hc]; [done |].
  destruct (Ascii.eqb_spec "010" c) as [<- | _]; done.
Qed.

(** C5 (amended). For a displayed result of Status Info, the only results
    whose summary is written on the line, the newlines of the summary are
    turned into spaces before the summary is cut to its first 50
    characters; the ellipsis is appended whenever the cut shortens the
    summary, and is not when the flattened summary is at most 50 bytes
    long, which the cut then leaves whole; for a summary of one-byte
    characters the ellipsis is appended exactly when the cut shortens. *)
Theorem C5_info_summary_flattened_then_cut (r : Result) :
  Status_ r = Info →
  let flat := replaceNewlines (Summary r) in
  summaryPayload r = " [" +:+ truncateString 50 flat +:+ ellipsisOf flat +:+ "] "
  ∧ GoStrings.Contains flat newline = false
  ∧ (truncateString 50 flat ≠ flat → ellipsisOf flat = "...")
  ∧ ((String.length flat ≤ 50)%nat →
       ellipsisOf flat = "" ∧ truncateString 50 flat = flat)
  ∧ (isASCII (Summary r) = true →
       (ellipsisOf flat = "..." ↔ truncateString 50 flat ≠ flat)).
Proof.
  intros Hinfo flat. unfold summaryPayload, ellipsisOf.
  rewrite (bool_decide_eq_true_2 _ Hinfo). fold flat.
  split_and!.
  - done.
  - apply replaceNewlines_flat.
  - intros Hcut. apply truncateString_shortens in Hcut.
    by apply Nat.ltb_lt in Hcut as ->.
  - intros Hlen. split; [| by apply truncateString_short].
    destruct (Nat.ltb_spec 50 (String.length flat)); [lia | done].
  - intros Hascii. apply isASCII_replaceNewlines in Hascii. fold flat in Hascii.
    rewrite (truncateString_ASCII _ _ Hascii), takeBytes_all.
    destruct (Nat.ltb_spec 50 (String.length flat)); split; try done; lia.
Qed.

Lemma C5_info_summary_flattened_then_cut_witness :
  summaryPayload longInfo
  = " [first line and a second line that runs past the ca...] ".
Proof.
  pose proof (C5_info_summary_flattened_then_cut longInfo eq_refl) as [H _].
  rewrite H. vm_compute. reflexivity.
Defined.

(** C5, as stated, fails: a displayed Warning has no summary on its line at
    all, and a summary of 30 two-byte characters, which the cut to 50
    characters leaves whole, is followed by the ellipsis. *)
Lemma C5_summary_payload_differs :
  summaryPayload {| Status_ := Warning; Summary := "a" +:+ newline +:+ "b";
                    URL := ""; Payload_ := PNil |}
    ≠ " [" +:+ flattenedCutMarked ("a" +:+ newline +:+ "b") +:+ "] "
  ∧ truncateString 50 (replaceNewlines accents) = accents
  ∧ summaryPayload {| Status_ := Info; Summary := accents;
                      URL := ""; Payload_ := PNil |}
    = " [" +:+ accents +:+ "...] "
  ∧ summaryPayload {| Status_ := Info; Summary := accents;
                      URL := ""; Payload_ := PNil |}
    ≠ " [" +:+ flattenedCutMarked accents +:+ "] ".
Proof. vm_compute. split_and!; done. Qed.

Section Closure.
Variable StatusToString : Status -> string.
Variable filteredResult : string -> bool.
Variable ColorString : Color -> string -> string.
Variable filteredToString : list nat -> string.
Variable flags : Flags.

#[local] Abbreviation resultLine := (resultLine StatusToString ColorString).
#[local] Abbreviation loopBody :=
  (loopBody StatusToString filteredResult ColorString).
#[local] Abbreviation loop := (loop StatusToString filteredResult ColorString).
#[local] Abbreviation afterLoop := (afterLoop ColorString filteredToString flags).
#[local] Abbreviation WriteLineResults :=
  (WriteLineResults StatusToString filteredResult ColorString filteredToString
     flags).
#[local] Abbreviation hidden := (hidden StatusToString filteredResult).
#[local] Abbreviation hiddenCount := (hiddenCount StatusToString filteredResult).
#[local] Abbreviation hiddenOfStatus :=
  (hiddenOfStatus StatusToString filteredResult).
#[local] Abbreviation breakdown := (breakdown StatusToString filteredResult).
#[local] Abbreviation resultLines :=
  (resultLines StatusToString filteredResult ColorString).
#[local] Abbreviation hiddenSummary :=
  (hiddenSummary StatusToString filteredResult ColorString filteredToString flags).
#[local] Abbreviation hsmStep := (hsmStep StatusToString filteredResult).
#[local] Abbreviation hsmSeen := (hsmSeen StatusToString filteredResult).
#[local] Abbreviation closingLines :=
  (closingLines StatusToString filteredResult flags).
#[local] Abbreviation tally := (tally StatusToString filteredResult).
#[local] Abbreviation stepState :=
  (stepState StatusToString filteredResult ColorString).

Lemma tally_cons counts r rs :
  tally counts (r :: rs) =
  tally (if hidden r then alter S (statusIndex (Status_ (Result_ r))) counts
         else counts) rs.
Proof. reflexivity. Qed.

Lemma hiddenOfStatus_cons s r rs :
  hiddenOfStatus s (r :: rs) =
  ((if hidden r && bool_decide (Status_ (Result_ r) = s) then 1 else 0)
   + hiddenOfStatus s rs)%nat.
Proof.
  unfold hiddenOfStatus. cbn [List.filter]. by destruct (_ && _).
Qed.

Lemma tally_six : ∀ results a0 a1 a2 a3 a4 a5,
  tally [a0; a1; a2; a3; a4; a5] results =
  [a0 + hiddenOfStatus None_ results; a1 + hiddenOfStatus Success results;
   a2 + hiddenOfStatus Warning results; a3 + hiddenOfStatus Failure results;
   a4 + hiddenOfStatus Error results; a5 + hiddenOfStatus Info results]%nat.
Proof.
  induction results as [|r rs IH]; intros a0 a1 a2 a3 a4 a5.
  - unfold hiddenOfStatus. cbn. by rewrite !Nat.add_0_r.
  - rewrite tally_cons, !hiddenOfStatus_cons.
    destruct (hidden r); cbn [andb].
    + destruct (Status_ (Result_ r)); cbn; rewrite IH;
        repeat (apply (f_equal2 cons); [case_bool_decide; (done || lia) |]);
        reflexivity.
    + cbn. apply IH.
Qed.

Lemma tally_breakdown results : tally (replicate 6 0%nat) results = breakdown results.
Proof. cbn [replicate]. by rewrite tally_six. Qed.

Lemma loopBody_spec st r :
  payloadContract r → loopBody st r = Some (stepState st r).
Proof.
  intros Hr. unfold Aggregator.loopBody, stepState, hsmStep, resultLines, tally, hidden.
  cbn [List.flat_map List.fold_left app].
  destruct (filteredResult _); cbn [negb andb]; [| by rewrite app_nil_r].
  rewrite app_nil_r.
  destruct (String.eqb_spec (TaskId r) "Base/Config/ValidateHSM") as [Eid | Nid];
    cbn [andb].
  - destruct (Hr Eid) as [E | [m E]]; rewrite E; cbn [isNil negb andb fst snd].
    + by rewrite Nat.add_0_r.
    + by rewrite Nat.add_0_r.
  - by rewrite Nat.add_0_r.
Qed.

Lemma loop_spec : ∀ results st,
  Forall payloadContract results →
  loop st results =
    inl {| filteredCounter := filteredCounter st + hiddenCount results;
           filtered := tally (filtered st) results;
           outputResults := outputResults st ++ results;
           hsmResult := (List.fold_left hsmStep results (hsmResult st, hsmPayload st)).1;
           hsmPayload := (List.fold_left hsmStep results (hsmResult st, hsmPayload st)).2;
           logged := logged st ++ resultLines results |}.
Proof.
  induction results as [|r rs IH]; intros st Hc.
  - destruct st. cbn. by rewrite Nat.add_0_r, !app_nil_r.
  - apply Forall_cons in Hc as [Hr Hrs].
    cbn [Aggregator.loop]. rewrite (loopBody_spec st r Hr), (IH _ Hrs).
    unfold stepState.
    cbn [filteredCounter filtered outputResults hsmResult hsmPayload logged].
    f_equal. f_equal.
    + unfold hiddenCount. cbn [List.filter]. destruct (hidden r); cbn; lia.
    + by rewrite <- app_assoc.
    + cbn [List.fold_left]. by destruct (hsmStep _ r).
    + cbn [List.fold_left]. by destruct (hsmStep _ r).
    + rewrite <- app_assoc. f_equal. unfold resultLines. cbn [List.flat_map].
      by rewrite app_nil_r.
Qed.

(** C6. For every stream in which each result of Base/Config/ValidateHSM
    carries nil or a [map[string]bool]: once the stream is closed,
    [WriteLineResults] writes one message naming the count of hidden
    results and their breakdown by status when some result was hidden, and
    none otherwise; it returns every result observed, hidden or displayed,
    in arrival order.  On an empty stream it writes the debug line
    [Done with writeLineResults] and nothing else, so nothing that reaches
    the user, and returns the empty list. *)
Theorem C6_closure_summary_and_full_list (results : list TaskResult) :
  Forall payloadContract results →
  WriteLineResults results =
    Returned (resultLines results ++ hiddenSummary results ++ closingLines results)
             results
  ∧ (hiddenCount results = 0%nat → hiddenSummary results = [])
  ∧ Forall (fun e => ∀ msg, e ≠ LogInfo msg) (resultLines results)
  ∧ (results = [] →
       WriteLineResults results
       = Returned [LogDebug "Done with writeLineResults"] []
       ∧ visible [LogDebug "Done with writeLineResults"] = []).
Proof.
  intros Hc.
  assert (Hw : WriteLineResults results =
    Returned (resultLines results ++ hiddenSummary results ++ closingLines results)
             results).
  { unfold Aggregator.WriteLineResults. rewrite (loop_spec _ _ Hc).
    cbn [initialLoopState filteredCounter filtered outputResults hsmResult
         hsmPayload logged app Nat.add].
    rewrite tally_breakdown. f_equal. f_equal.
    unfold Aggregator.afterLoop, hiddenSummary, closingLines, hsmSeen.
    cbn [filteredCounter filtered outputResults hsmResult hsmPayload].
    f_equal; [by destruct (hiddenCount results) |].
    f_equal. f_equal. by destruct results. }
  split_and!; [done | | |].
  - unfold hiddenSummary. by intros ->.
  - clear Hw. unfold resultLines. induction results as [|r rs IH]; [constructor |].
    apply Forall_cons in Hc as [_ Hrs]. cbn [List.flat_map].
    apply Forall_app. split; [| by apply IH].
    unfold Aggregator.resultLine, doneWith.
    destruct (hidden r), (WasOverride r); repeat constructor; done.
  - intros ->. split; [| reflexivity]. rewrite Hw. reflexivity.
Qed.

End Closure.

Lemma fourResults_contract : Forall payloadContract fourResults.
Proof. repeat constructor; intros E; discriminate E. Qed.

Lemma C6_closure_summary_and_full_list_witness :
  WriteLineResults statusName showIssues plainColor showCounts loud fourResults
  = Returned
      [LogDebug "Done with Base/Config/Collect in output results";
       LogFixedPrefix 20 "Info" "Base/Env/HostInfo [host] ";
       LogDebug "Done with Base/Env/HostInfo in output results";
       LogDebug "Done with Java/Config/Agent in output results";
       LogFixedPrefix 20 "Warning" "Base/Log/Copy";
       LogDebug "Done with Base/Log/Copy in output results";
       LogInfo "2 results not shown: 1 1 0 0 0 0 ";
       LogInfo "See nrdiag-output.json for full results.";
       LogDebug "Done with writeLineResults"]
      fourResults.
Proof.
  pose proof (C6_closure_summary_and_full_list statusName showIssues plainColor
                showCounts loud fourResults fourResults_contract) as [H _].
  rewrite H. vm_compute. reflexivity.
Defined.

(** C6, as stated for every sequence, fails: a displayed result of
    Base/Config/ValidateHSM whose payload is a string passes the test
    [Payload != nil] and stops [WriteLineResults] in the panic of the type
    assertion [Payload.(map[string]bool)].  Nothing is written, no closing
    message and no list of results is returned, though one result was
    observed. *)
Lemma C6_string_hsm_payload_returns_no_list :
  showIssues (statusName (Status_ (Result_ MoreSamples.badHsm))) = true
  ∧ WriteLineResults statusName showIssues plainColor showCounts loud
      [MoreSamples.badHsm]
    = Panicked []
  ∧ ∀ log results,
      WriteLineResults statusName showIssues plainColor showCounts loud
        [MoreSamples.badHsm]
      ≠ Returned log results.
Proof.
  split_and!; [reflexivity | reflexivity |].
  intros log results H. discriminate H.
Qed.

End AggregatorProps.

Module IncludeFlagProps.
Import Tasks GoStrings Fmt Logger IncludeFlag IncludeFlagSpec Samples.

Section Props.
Variable WalkSizeFunction : FileInfo -> Z.
Variable WalkCopyFunction :
  string -> FileInfo -> option string -> Zip -> Zip * option string.
Variable ColorString : Color -> string -> string.
Variable fs : FileSystem.

Lemma wrap64_small z : (- 2 ^ 63 ≤ z < 2 ^ 63)%Z → wrap64 z = z.
Proof. intros H. unfold wrap64. rewrite Z.mod_small; lia. Qed.

Lemma regularBytes_cons e entries :
  regularBytes WalkSizeFunction (e :: entries)
  = if IsDir (walkInfo e) then regularBytes WalkSizeFunction entries
    else (WalkSizeFunction (walkInfo e) + regularBytes WalkSizeFunction entries)%Z.
Proof. reflexivity. Qed.

Lemma regularBytes_nonneg entries :
  Forall (fun e => walkErr e = None
                   ∧ (0 ≤ WalkSizeFunction (walkInfo e))%Z) entries →
  (0 ≤ regularBytes WalkSizeFunction entries)%Z.
Proof.
  induction 1 as [|e entries [_ He] _ IH]; [done |].
  rewrite regularBytes_cons. destruct (IsDir (walkInfo e)); lia.
Qed.

(** Without a walk error and without an overflow of [int64], the computed
    size is the sum of the sizes of the regular files. *)
Lemma GetTotalSize_sum pathToDir :
  Forall (fun e => walkErr e = None
                   ∧ (0 ≤ WalkSizeFunction (walkInfo e))%Z) (Entries fs pathToDir) →
  (regularBytes WalkSizeFunction (Entries fs pathToDir) < 2 ^ 63)%Z →
  GetTotalSize WalkSizeFunction fs pathToDir
  = (regularBytes WalkSizeFunction (Entries fs pathToDir), None).
Proof.
  unfold GetTotalSize. generalize (Entries fs pathToDir). intros entries Hall Hsum.
  assert (Hgen : ∀ acc, (0 ≤ acc)%Z →
    (acc + regularBytes WalkSizeFunction entries < 2 ^ 63)%Z →
    Walk (fun totalFileSize e =>
            match walkErr e with
            | Some err => (totalFileSize, Some err)
            | None =>
                if IsDir (walkInfo e) then (totalFileSize, None)
                else (wrap64 (totalFileSize + WalkSizeFunction (walkInfo e)), None)
            end) entries acc
    = ((acc + regularBytes WalkSizeFunction entries)%Z, None)).
  { clear Hsum. induction Hall as [|e entries [He Hpos] Hall IH]; intros acc Hacc Hlt.
    - cbn. by rewrite Z.add_0_r.
    - pose proof (regularBytes_nonneg entries Hall) as Hrest.
      rewrite regularBytes_cons in *. cbn [Walk]. rewrite He.
      destruct (IsDir (walkInfo e)).
      + by apply IH.
      + rewrite wrap64_small by lia. rewrite IH by lia. f_equal. lia. }
  rewrite Hgen; [done | lia | lia].
Qed.

(** C1 (amended). For an include path that exists and whose computed
    cumulative size exceeds 3,999,999,999 bytes, the include step writes the
    fatal error on files of 4GB or larger before anything of that path is
    archived, and, [Fatalf] ending the process, stops the run there: the
    zip file is as it was, and no later step of the archive is run. *)
Theorem C1_oversize_include_is_fatal (zipfile : Zip) (includePath : string) :
  Stat fs includePath = StatOk →
  (3999999999 < (GetTotalSize WalkSizeFunction fs includePath).1)%Z →
  HandleIncludeFlag WalkSizeFunction WalkCopyFunction ColorString true fs
    zipfile includePath
  = Exited (sizeLog WalkSizeFunction fs includePath ++ [LogFatal fatalMessage])
           zipfile.
Proof.
  intros Hstat Hsize. unfold HandleIncludeFlag, sizeLog. rewrite Hstat.
  destruct (GetTotalSize WalkSizeFunction fs includePath) as [fileSize err].
  cbn [fst snd] in *. apply Z.ltb_lt in Hsize. by rewrite Hsize.
Qed.

End Props.

Example bigInclude_size :
  GetTotalSize Size bigInclude "inc" = (5000000000%Z, None).
Proof. reflexivity. Qed.

Lemma C1_oversize_include_is_fatal_witness :
  HandleIncludeFlag Size copyUnderInclude (fun _ s => s) true bigInclude
    ["nrdiag-output.json"] "inc"
  = Exited [LogFatal fatalMessage] ["nrdiag-output.json"].
Proof.
  exact (C1_oversize_include_is_fatal Size copyUnderInclude (fun _ s => s)
           bigInclude ["nrdiag-output.json"] "inc" eq_refl eq_refl).
Defined.

(** C1, as stated, fails on the 5,000,000,000 bytes of [bigInclude]: if
    [Fatalf] ends the process the step never returns, and if it returned
    the two files would be archived. *)
Lemma C1_oversize_include_not_skipped :
  ¬ rejectedAndArchiveGoesOn true ∧ ¬ rejectedAndArchiveGoesOn false.
Proof.
  split; intros H;
    destruct (H Size copyUnderInclude (fun _ s => s) bigInclude
                ["nrdiag-output.json"] "inc" eq_refl eq_refl) as (log & E & _);
    vm_compute in E; discriminate E.
Qed.

End IncludeFlagProps.

Module AttachProps.
Import Fmt Attach AttachSpec Samples.

Section Props.
Context {deps : AttachDeps}.
Variable makeRequest : RequestWrapper -> Response + string.
Variable endpoint attachmentKey : string.

#[local] Abbreviation uploadFile f := (uploadFile makeRequest endpoint f attachmentKey).
#[local] Abbreviation uploadFilesToAccount fs :=
  (uploadFilesToAccount makeRequest endpoint fs attachmentKey).
#[local] Abbreviation wrapperOf := (wrapperOf endpoint attachmentKey).
#[local] Abbreviation fileFails := (fileFails makeRequest endpoint attachmentKey).

Lemma fileFails_error file : fileFails file → ∃ err, uploadFile file = inr err.
Proof.
  unfold Attach.uploadFile.
  intros [err E | reader err E1 E2 | reader res E1 E2 Hs | reader res err E1 E2 E3];
    fold (nameOf file).
  - rewrite E. eauto.
  - rewrite E1. fold (wrapperOf file reader). rewrite E2. eauto.
  - rewrite E1. fold (wrapperOf file reader). rewrite E2.
    destruct (Nat.leb_spec 200 (StatusCode res)),
             (Nat.ltb_spec (StatusCode res) 300); cbn [andb]; eauto. lia.
  - rewrite E1. fold (wrapperOf file reader). rewrite E2, E3.
    destruct (_ && _); eauto.
Qed.

Lemma upload_all_ok files urls :
  Forall2 (fun f u => uploadFile f = inl u) files urls →
  uploadFilesToAccount files = (files, inl urls).
Proof.
  induction 1 as [|f u files urls Hf _ IH]; [done |].
  cbn [Attach.uploadFilesToAccount]. by rewrite Hf, IH.
Qed.

Lemma upload_first_failure done urls file err rest :
  Forall2 (fun f u => uploadFile f = inl u) done urls →
  uploadFile file = inr err →
  uploadFilesToAccount (done ++ file :: rest) = (done ++ [file], inr err).
Proof.
  intros Hok Hf. induction Hok as [|f u done urls Hu _ IH].
  - cbn [app Attach.uploadFilesToAccount]. by rewrite Hf.
  - cbn [app Attach.uploadFilesToAccount]. by rewrite Hu, IH.
Qed.

(** C4. A reader error, a transport error, a response outside 2xx or a
    URL-request error on one file fails that file; the first failing file
    of a batch ends the batch: the files after it are not attempted, the
    error is returned and no URL is; when every file succeeds, the URLs are
    returned, one per file, in the order of the files. *)
Theorem C4_upload_batch (files : list UploadFiles) :
  (∀ file, fileFails file → ∃ err, uploadFile file = inr err)
  ∧ (∀ done urls file rest,
       files = done ++ file :: rest →
       Forall2 (fun f u => uploadFile f = inl u) done urls →
       fileFails file →
       ∃ err, uploadFile file = inr err
              ∧ uploadFilesToAccount files = (done ++ [file], inr err))
  ∧ (∀ urls,
       Forall2 (fun f u => uploadFile f = inl u) files urls →
       uploadFilesToAccount files = (files, inl urls)
       ∧ length urls = length files).
Proof.
  split_and!.
  - apply fileFails_error.
  - intros done urls file rest -> Hok Hfail.
    destruct (fileFails_error file Hfail) as [err E]. exists err.
    split; [done |]. by eapply upload_first_failure.
  - intros urls Hok. split; [by apply upload_all_ok |].
    symmetry. by eapply Forall2_length.
Qed.

End Props.

(** The rows of the table of [Test_uploadFile]. *)
Example upload_success :
  Attach.uploadFile (deps := mockDeps (inl "mock") "/success" (inl "https://newrelic.com"))
    testServer "upload_s3" jsonfile "testKey" = inl "https://newrelic.com".
Proof. reflexivity. Qed.

Example upload_reader_error :
  Attach.uploadFile
    (deps := mockDeps (inr "Error uploading at Reader") "/success"
               (inl "https://newrelic.com"))
    testServer "upload_s3" jsonfile "testKey" = inr "Error uploading at Reader".
Proof. reflexivity. Qed.

Example upload_non_200 :
  ∃ err,
    Attach.uploadFile (deps := mockDeps (inl "mock") "/error" (inl "https://newrelic.com"))
      testServer "upload_s3" jsonfile "testKey" = inr err.
Proof. eexists. vm_compute. reflexivity. Qed.

Example upload_url_error :
  Attach.uploadFile (deps := mockDeps (inl "mock") "/success" (inr "URL Error"))
    testServer "upload_s3" jsonfile "testKey" = inr "URL Error".
Proof. reflexivity. Qed.

(** The row of the table of [Test_uploadFilesToAccount]. *)
Example upload_account_success :
  (Attach.uploadFilesToAccount
     (deps := mockDeps (inl "mock") "/success" (inl "https://newrelic.com"))
     testServer "upload_s3" [jsonfile] "testKey").2
  = inl ["https://newrelic.com"].
Proof. reflexivity. Qed.

(** Two files, the URL request of the second answers an error: the batch
    ends on the error, and the URL of the first file is not returned. *)
Lemma C4_upload_batch_witness :
  ∃ err,
    Attach.uploadFile (deps := firstOnlyDeps) echoServer "upload_s3" zipfile "testKey"
      = inr err
    ∧ Attach.uploadFilesToAccount (deps := firstOnlyDeps) echoServer "upload_s3"
        [jsonfile; zipfile] "testKey"
      = ([jsonfile; zipfile], inr err).
Proof.
  destruct (C4_upload_batch (deps := firstOnlyDeps) echoServer "upload_s3"
              "testKey" [jsonfile; zipfile]) as (_ & Habort & _).
  apply (Habort [jsonfile] ["https://newrelic.com/file1.json"] zipfile []).
  - reflexivity.
  - repeat constructor.
  - eapply (urlError _ _ _ _ "/file2.zip"); reflexivity.
Defined.

(** C7. The attachments endpoint is the flag when the flag is not empty,
    else the persisted value when that is not empty, else
    [http://localhost:3000/attachments]. *)
Theorem C7_endpoint_precedence (flag persisted : string) :
  (flag ≠ "" → getAttachmentsEndpoint flag persisted = flag)
  ∧ (flag = "" → persisted ≠ "" →
       getAttachmentsEndpoint flag persisted = persisted)
  ∧ (flag = "" → persisted = "" →
       getAttachmentsEndpoint flag persisted = "http://localhost:3000/attachments").
Proof.
  unfold getAttachmentsEndpoint. split_and!.
  - intros H. by destruct (String.eqb_spec flag "").
  - intros -> H. cbn. by destruct (String.eqb_spec persisted "").
  - by intros -> ->.
Qed.

(** The three cases of [TestAttachDeps_getAttachmentsEndpoint]. *)
Example endpoint_none_set :
  getAttachmentsEndpoint "" "" = "http://localhost:3000/attachments".
Proof. reflexivity. Qed.
Example endpoint_flag_set :
  getAttachmentsEndpoint "http://diag.datanerd.us/attachments" ""
  = "http://diag.datanerd.us/attachments".
Proof. reflexivity. Qed.
Example endpoint_config_set :
  getAttachmentsEndpoint "" "http://diag.datanerd.us/attachments"
  = "http://diag.datanerd.us/attachments".
Proof. reflexivity. Qed.

Lemma C7_endpoint_precedence_witness :
  getAttachmentsEndpoint "http://flag/attachments" "http://persisted/attachments"
    = "http://flag/attachments"
  ∧ getAttachmentsEndpoint "" "http://persisted/attachments"
    = "http://persisted/attachments"
  ∧ getAttachmentsEndpoint "" "" = "http://localhost:3000/attachments".
Proof.
  split_and!.
  - apply (C7_endpoint_precedence "http://flag/attachments"
             "http://persisted/attachments"). discriminate.
  - apply (C7_endpoint_precedence "" "http://persisted/attachments");
      [reflexivity | discriminate].
  - apply (C7_endpoint_precedence "" ""); reflexivity.
Defined.

End AttachProps.

(** * Further properties of the code *)

Module InitSystemMore.
Import Tasks GoStrings Regexp InitSystem StringFacts InitSystemProps.

(** How [parseInitSystem] decides between the two patterns: Systemd is
    answered exactly for the paths other than [/sbin/init] that end in
    [/systemd], and Upstart exactly for the paths other than [/sbin/init]
    that end in [upstart] without ending in [/systemd]. *)
Theorem parseInitSystem_by_suffix (initPath : string) :
  (parseInitSystem initPath = "Systemd" ↔
     initPath ≠ "/sbin/init" ∧ ∃ pre, initPath = pre +:+ "/systemd")
  ∧ (parseInitSystem initPath = "Upstart" ↔
       initPath ≠ "/sbin/init" ∧ (¬ ∃ pre, initPath = pre +:+ "/systemd")
       ∧ ∃ pre, initPath = pre +:+ "upstart").
Proof.
  unfold parseInitSystem.
  destruct (String.eqb_spec initPath "/sbin/init") as [-> | Hne].
  { split; (split; [done | by intros []]). }
  rewrite <- !regexSysD_ends, <- regexUpstart_ends.
  destruct (Match regexSysD initPath).
  { split; (split; [try done | intros (_ & ?); try done]).
    by destruct H. }
  destruct (Match regexUpstart initPath).
  { split; (split; [try done | try by intros (_ & ?)]). }
  split; (split; [by destruct (Contains initPath "busybox") |]).
  - by intros (_ & ?).
  - by intros (_ & _ & ?).
Qed.

(** On Windows and on Mac OS the symlink is not evaluated, and no task
    looks at the upstream results: the answer is Status None whatever the
    evaluator and the upstream map are. *)
Theorem init_system_skips_other_systems (os : string)
    (eval1 eval2 : string -> string + string)
    (upstream1 upstream2 : gmap string Result) :
  os = "windows" ∨ os = "darwin" →
  Execute {| runtimeOs := os; evalSymlink := eval1 |} upstream1
  = Execute {| runtimeOs := os; evalSymlink := eval2 |} upstream2
  ∧ Status_ (Execute {| runtimeOs := os; evalSymlink := eval1 |} upstream1) = None_.
Proof. by intros [-> | ->]. Qed.

Lemma init_system_skips_other_systems_witness :
  Execute {| runtimeOs := "darwin"; evalSymlink := fun _ => inl "/sbin/init" |} ∅
  = Execute {| runtimeOs := "darwin"; evalSymlink := fun _ => inr "no such file" |} ∅.
Proof.
  apply (init_system_skips_other_systems "darwin"). by right.
Defined.

End InitSystemMore.

Module AppNameMore.
Import Tasks GoStrings Fmt AppName StringFacts Samples.

Section More.
Variable HasPayload : Result -> bool.
Variable FindKey : ValidateBlob -> string -> list ValidateBlob.
Variable IsLeaf : ValidateBlob -> bool.
Variable Value : ValidateBlob -> string.
Variable AssertionErrorSummary : string.

#[local] Abbreviation Execute :=
  (Execute HasPayload FindKey IsLeaf Value AssertionErrorSummary).
#[local] Abbreviation getAppNamesFromConfig :=
  (getAppNamesFromConfig FindKey IsLeaf Value).
#[local] Abbreviation appNamesOfConfigFile :=
  (appNamesOfConfigFile FindKey IsLeaf Value).
#[local] Abbreviation findPrimaryNameKey := (findPrimaryNameKey FindKey).

Lemma str_length_zero (s : string) : String.length s = 0%nat ↔ s = "".
Proof. by destruct s. Qed.

(** The inner loop over the default names appends a line exactly when the
    name is one of them. *)
Lemma default_names_inner (defaults : list string) (info : AppNameInfo) :
  ∀ acc,
    List.fold_left (fun acc defaultName =>
      if String.eqb (Name info) defaultName then
        acc +:+ (newline +:+ tab +:+ dquote +:+ Name info +:+ dquote
                 +:+ " as specified in " +:+ FilePath info)
      else acc) defaults acc = ""
    ↔ acc = "" ∧ Name info ∉ defaults.
Proof.
  induction defaults as [|d defaults IH]; intros acc; cbn [List.fold_left].
  - split; [intros ->; split; [done | apply not_elem_of_nil] | by intros []].
  - rewrite IH, not_elem_of_cons.
    destruct (String.eqb_spec (Name info) d) as [E | N].
    + split; [| tauto]. intros [Hacc _].
      apply str_length_zero in Hacc. rewrite !str_length_app in Hacc.
      cbn in Hacc. lia.
    + tauto.
Qed.

Lemma defaultNameMatchesOf_none (infos : list AppNameInfo) :
  defaultNameMatchesOf infos = ""
  ↔ ∀ info, info ∈ infos → Name info ∉ defaultAppNames.
Proof.
  unfold defaultNameMatchesOf.
  assert (Hgen : ∀ acc,
    List.fold_left (fun acc info =>
      List.fold_left (fun acc defaultName =>
        if String.eqb (Name info) defaultName then
          acc +:+ (newline +:+ tab +:+ dquote +:+ Name info +:+ dquote
                   +:+ " as specified in " +:+ FilePath info)
        else acc) defaultAppNames acc) infos acc = ""
    ↔ acc = "" ∧ ∀ info, info ∈ infos → Name info ∉ defaultAppNames).
  { induction infos as [|i infos IH]; intros acc; cbn [List.fold_left].
    - split; [intros ->; split; [done | by intros ? ?%elem_of_nil] | by intros []].
    - rewrite IH, default_names_inner. split.
      + intros [[-> Hi] Hrest]. split; [done |].
        intros info [-> | Hin]%elem_of_cons; [done | by apply Hrest].
      + intros [-> Hall]. split_and!; [done | |].
        * apply Hall. by left.
        * intros info Hin. apply Hall. by right. }
  rewrite Hgen. tauto.
Qed.

(** [Execute] never answers Failure or Info. *)
Theorem app_name_status_range (upstream : gmap string Result) :
  Status_ (Execute upstream) ≠ Failure ∧ Status_ (Execute upstream) ≠ Info.
Proof.
  unfold AppName.Execute. repeat case_match; by split.
Qed.

(** [Execute] answers Error in one case only: no name comes from the
    environment variable nor from a system property, the upstream result of
    Base/Config/Validate has a payload, and that payload is not a list of
    validated config files.  A payload of the wrong type under
    Base/Env/CollectEnvVars or Base/Env/CollectSysProps is no error. *)
Theorem app_name_error_iff (upstream : gmap string Result) :
  Status_ (Execute upstream) = Error ↔
    Name (getAppNameFromEnvVar upstream) = ""
    ∧ getAppNameFromSysProps upstream = ""
    ∧ HasPayload (upstreamAt upstream "Base/Config/Validate") = true
    ∧ ∀ l, Payload_ (upstreamAt upstream "Base/Config/Validate")
           ≠ PValidateElements l.
Proof.
  unfold AppName.Execute.
  destruct (Name (getAppNameFromEnvVar upstream)) as [|c n] eqn:En; cbn [String.length Nat.ltb Nat.leb].
  2: { split; [done | by intros []]. }
  destruct (String.eqb_spec (getAppNameFromSysProps upstream) "") as [Es | Ns];
    cbn [negb].
  2: { split; [done | by intros (_ & ? & _)]. }
  destruct (HasPayload _); cbn [negb].
  2: { split; [done | by intros (_ & _ & ? & _)]. }
  destruct (Payload_ (upstreamAt upstream "Base/Config/Validate")) eqn:Ep;
    try (split; [by intros _ | done]).
  split; [| intros (_ & _ & _ & H); by destruct (H l)].
  repeat case_match; done.
Qed.

(** With no name from the environment variable, the value of the system
    property of the first process that has it, when not empty, is the
    answer, whatever Base/Config/Validate holds. *)
Theorem app_name_from_system_property (upstream : gmap string Result)
    (before after : list ProcIDSysProps) (proc : ProcIDSysProps) (value : string) :
  Name (getAppNameFromEnvVar upstream) = "" →
  Status_ (upstreamAt upstream "Base/Env/CollectSysProps") = Info →
  Payload_ (upstreamAt upstream "Base/Env/CollectSysProps")
    = PSysProps (before ++ proc :: after) →
  Forall (fun p => SysPropsKeyToVal p !! "-Dnewrelic.config.app_name" = None) before →
  SysPropsKeyToVal proc !! "-Dnewrelic.config.app_name" = Some value →
  value ≠ "" →
  Execute upstream =
    {| Status_ := Success;
       Summary := "An application name was found through a New Relic system property: " +:+ value;
       URL := "";
       Payload_ := PAppNameInfos
         [{| Name := value; FilePath := "-Dnewrelic.config.app_name" |}] |}.
Proof.
  intros Henv Hs Hp Hbefore Hproc Hval. unfold AppName.Execute.
  rewrite Henv. cbn [String.length Nat.ltb Nat.leb].
  assert (getAppNameFromSysProps upstream = value) as ->.
  { unfold getAppNameFromSysProps. rewrite Hs, Hp, decide_True by done.
    clear Hp. induction Hbefore as [|p before Hnone _ IH]; cbn [app firstSysProp].
    - unfold appNameSysProp. by rewrite Hproc.
    - unfold appNameSysProp in *. by rewrite Hnone. }
  by destruct (String.eqb_spec value "").
Qed.


(** Every name read from the config files carries the path and the name of
    one of the files given. *)
Theorem app_names_come_from_files (configElements : list ValidateElement)
    (info : AppNameInfo) :
  info ∈ getAppNamesFromConfig configElements →
  ∃ configFile, configFile ∈ configElements
    ∧ FilePath info
      = ConfigFilePath (Config configFile) +:+ FileName (Config configFile).
Proof.
  unfold AppName.getAppNamesFromConfig.
  intros Hin. apply list_elem_of_In, in_concat in Hin as (names & Hnames & Hin).
  apply in_map_iff in Hnames as (configFile & <- & Hfile).
  exists configFile. split; [by apply list_elem_of_In |].
  unfold AppName.appNamesOfConfigFile in Hin.
  repeat case_match; try done.
  - apply in_map_iff in Hin as (child & <- & _). done.
  - destruct Hin as [<- | []]. done.
Qed.

(** The keys are tried in order: the first key that is found decides, by
    its blob under a path with [common] when several blobs are found and
    one is, and by its first blob otherwise. *)
Theorem primary_name_key_priority (parsed : ValidateBlob)
    (unfound later : list string) (key : string)
    (first : ValidateBlob) (others : list ValidateBlob) :
  Forall (fun k => FindKey parsed k = []) unfound →
  FindKey parsed key = first :: others →
  findPrimaryNameKey (unfound ++ key :: later) parsed
  = default first
      (List.find (fun b => Contains (blobPath b) "common") (first :: others)).
Proof.
  intros Hunfound Hkey.
  induction Hunfound as [|k unfound Hk _ IH]; cbn [app AppName.findPrimaryNameKey].
  - rewrite Hkey. destruct others as [|second others].
    + cbn [List.find]. by destruct (Contains _ _).
    + reflexivity.
  - by rewrite Hk.
Qed.

End More.

(** A parsed file in which [app_name] is absent and [newrelic.appname] is
    found twice, the second time under a path with [common]. *)
Lemma primary_name_key_priority_witness :
  findPrimaryNameKey
    (fun _ key =>
       if String.eqb key "newrelic.appname" then
         [Blob "newrelic.appname" "/production" "a" [];
          Blob "newrelic.appname" "/common" "b" []]
       else [])
    appNameConfigKeys emptyBlob
  = Blob "newrelic.appname" "/common" "b" [].
Proof.
  exact (primary_name_key_priority
           (fun _ key =>
              if String.eqb key "newrelic.appname" then
                [Blob "newrelic.appname" "/production" "a" [];
                 Blob "newrelic.appname" "/common" "b" []]
              else [])
           emptyBlob ["app_name"] ["AppName"; "NewRelic.AppName"; "name"]
           "newrelic.appname"
           (Blob "newrelic.appname" "/production" "a" [])
           [Blob "newrelic.appname" "/common" "b" []]
           ltac:(repeat constructor) eq_refl).
Defined.

End AppNameMore.

Module AppNameMoreWitnesses.
Import Tasks GoStrings Fmt AppName AppNameMore MoreSamples.

Lemma app_name_from_system_property_witness :
  Execute (fun _ => true) (fun _ _ => []) (fun _ => true) (fun _ => "")
    "assertion" sysPropsUpstream
  = {| Status_ := Success;
       Summary := "An application name was found through a New Relic system property: svc";
       URL := "";
       Payload_ := PAppNameInfos
         [{| Name := "svc"; FilePath := "-Dnewrelic.config.app_name" |}] |}.
Proof.
  exact (app_name_from_system_property (fun _ => true) (fun _ _ => [])
           (fun _ => true) (fun _ => "") "assertion" sysPropsUpstream
           [{| SysPropsKeyToVal := {["-Xmx" := "2g"]} |}] []
           {| SysPropsKeyToVal := {["-Dnewrelic.config.app_name" := "svc"]} |}
           "svc" eq_refl eq_refl eq_refl
           ltac:(repeat constructor) eq_refl ltac:(discriminate)).
Defined.


Lemma app_names_come_from_files_witness :
  ∃ configFile, configFile ∈ [oneConfig "billing"]
    ∧ "/etc/newrelic.yml"
      = ConfigFilePath (Config configFile) +:+ FileName (Config configFile).
Proof.
  apply (app_names_come_from_files findAppName (fun _ => true) rawValue
           [oneConfig "billing"]
           {| Name := "billing"; FilePath := "/etc/newrelic.yml" |}).
  by left.
Defined.

End AppNameMoreWitnesses.

Module DotNetAgentMore.
Import Tasks GoStrings Fmt DotNetAgent.

Section More.
Variable NoAgentDetectedSummary : string.
Variable NoAgentUpstreamSummary : string.
Variable UpstreamFailedSummary : string.
Variable AssertionErrorSummary : string.
Variable FindKey : ValidateBlob -> string -> list ValidateBlob.
Variable EqualFold : string -> string -> bool.
Variable CaseInsensitiveStringContains : string -> string -> bool.
Variable FindStringInFile : string -> string -> bool.

#[local] Abbreviation Execute :=
  (Execute NoAgentDetectedSummary NoAgentUpstreamSummary UpstreamFailedSummary
           AssertionErrorSummary FindKey EqualFold
           CaseInsensitiveStringContains FindStringInFile).
#[local] Abbreviation checkConfigs :=
  (checkConfigs FindKey EqualFold CaseInsensitiveStringContains FindStringInFile).
#[local] Abbreviation configValidated :=
  (configValidated FindKey EqualFold CaseInsensitiveStringContains
     FindStringInFile).
#[local] Abbreviation keysToCheckOf :=
  (keysToCheckOf EqualFold CaseInsensitiveStringContains).
#[local] Abbreviation checkRawFile := (checkRawFile FindStringInFile).

Lemma length_pos_cons {A} (l : list A) : (0 <? length l)%nat = true ↔ l ≠ [].
Proof. destruct l; cbn; split; done. Qed.

(** A config file is validated exactly when it is one of the files given,
    its name selects a list of keys, and either one of these keys is found
    in it or the raw file shows a configuration element.  The error flag is
    raised exactly when no file is validated. *)
Theorem check_configs_accepts (configFiles : list ValidateElement)
    (configFile : ValidateElement) :
  (configFile ∈ (checkConfigs configFiles).1 ↔
     configFile ∈ configFiles
     ∧ ∃ keys, keysToCheckOf (FileName (Config configFile)) = Some keys
         ∧ ((∃ key, key ∈ keys ∧ FindKey (ParsedResult configFile) key ≠ [])
            ∨ checkRawFile (ConfigFilePath (Config configFile)
                            +:+ FileName (Config configFile)) = true))
  ∧ ((checkConfigs configFiles).2 = true ↔ (checkConfigs configFiles).1 = []).
Proof.
  unfold DotNetAgent.checkConfigs. split.
  - assert ((if (0 <? length (List.filter configValidated configFiles))%nat
             then (List.filter configValidated configFiles, false)
             else (List.filter configValidated configFiles, true)).1
            = List.filter configValidated configFiles) as ->
      by (by destruct (_ <? _)%nat).
    rewrite list_elem_of_In, filter_In, <- list_elem_of_In.
    unfold DotNetAgent.configValidated.
    destruct (keysToCheckOf (FileName (Config configFile))) as [keys |].
    + split.
      * intros [Hin Hv]. split; [done |]. exists keys. split; [done |].
        destruct (0 <? _)%nat eqn:Hfound; [left | by right].
        apply length_pos_cons in Hfound.
        destruct (List.filter _ keys) as [|key found] eqn:Ef; [done |].
        assert (In key (List.filter
                  (fun key => (0 <? length (FindKey (ParsedResult configFile) key))%nat)
                  keys)) as Hk by (rewrite Ef; by left).
        apply filter_In in Hk as [Hk Hpos]. exists key.
        split; [by apply list_elem_of_In | by apply length_pos_cons].
      * intros [Hin (keys' & [= <-] & Hor)]. split; [done |].
        destruct (0 <? _)%nat eqn:Hfound; [done |].
        destruct Hor as [(key & Hk & Hne) | Hraw]; [| done].
        assert (In key (List.filter
                  (fun key => (0 <? length (FindKey (ParsedResult configFile) key))%nat)
                  keys)) as Hin'.
        { apply filter_In. split; [by apply list_elem_of_In |].
          by apply length_pos_cons. }
        destruct (List.filter _ keys); [done | cbn in Hfound; done].
    + split; [by intros [] | by intros (_ & ? & ? & _)].
  - destruct (List.filter configValidated configFiles); cbn; split; done.
Qed.

(** Validating the validated files again validates them all. *)
Theorem check_configs_idempotent (configFiles : list ValidateElement) :
  checkConfigs (checkConfigs configFiles).1 = checkConfigs configFiles.
Proof.
  unfold DotNetAgent.checkConfigs.
  assert (Hff : List.filter configValidated (List.filter configValidated configFiles)
                = List.filter configValidated configFiles).
  { induction configFiles as [|f l IH]; [done |]. cbn [List.filter].
    destruct (configValidated f) eqn:Hf; [| done].
    cbn [List.filter]. by rewrite Hf, IH. }
  destruct (0 <? length (List.filter configValidated configFiles))%nat eqn:E;
    cbn [fst]; by rewrite Hff, E.
Qed.

(** With the agent installed and a list of config files upstream, the
    answer is Success exactly when some file is validated, and its payload
    is then the validated files, in the order given, which the summary
    counts; otherwise the answer is Warning.  An empty list gives Warning. *)
Theorem dotnet_agent_success_iff (upstream : gmap string Result)
    (configFiles : list ValidateElement) :
  Status_ (upstreamAt upstream "DotNet/Agent/Installed") = Success →
  Payload_ (upstreamAt upstream "Base/Config/Validate")
    = PValidateElements configFiles →
  let validated := List.filter configValidated configFiles in
  (validated ≠ [] →
     Execute upstream =
       {| Status_ := Success;
          Summary := "Found " +:+ Itoa (length validated)
                     +:+ " .NET agent config files.";
          URL := ""; Payload_ := PValidateElements validated |})
  ∧ (validated = [] → Status_ (Execute upstream) = Warning
                      ∧ Payload_ (Execute upstream) = PNil).
Proof.
  intros Hs Hp validated. unfold DotNetAgent.Execute.
  rewrite Hs, Hp, bool_decide_eq_true_2 by done. cbn [negb].
  unfold DotNetAgent.checkConfigs. fold validated.
  destruct validated; cbn; split; done.
Qed.

(** [Execute] never answers Failure or Info, and answers Error exactly when
    the agent is installed and the payload of Base/Config/Validate is not a
    list of config files. *)
Theorem dotnet_agent_error_iff (upstream : gmap string Result) :
  Status_ (Execute upstream) ≠ Failure
  ∧ Status_ (Execute upstream) ≠ Info
  ∧ (Status_ (Execute upstream) = Error ↔
       Status_ (upstreamAt upstream "DotNet/Agent/Installed") = Success
       ∧ ∀ l, Payload_ (upstreamAt upstream "Base/Config/Validate")
              ≠ PValidateElements l).
Proof.
  unfold DotNetAgent.Execute. case_bool_decide as Hs; cbn [negb].
  - destruct (Payload_ (upstreamAt upstream "Base/Config/Validate")) eqn:Ep;
      try (split_and!; [done | done | split; [by intros _ | done]]).
    destruct (checkConfigs l) as [files []]; cbn;
      (split_and!; [done | done | split; [done | intros [_ H]; by destruct (H l)]]).
  - destruct (String.eqb _ _); cbn;
      (split_and!; [done | done | split; [done | by intros []]]).
Qed.

End More.

End DotNetAgentMore.

Module DotNetAgentMoreWitnesses.
Import Tasks GoStrings Fmt DotNetAgent DotNetAgentMore MoreSamples.

Lemma dotnet_agent_success_iff_witness :
  Execute "no agent" "No agent upstream: " "Upstream failed: " "assertion"
    findLicenseKey String.eqb (fun _ _ => false) (fun _ _ => false)
    installedUpstream
  = {| Status_ := Success; Summary := "Found 1 .NET agent config files.";
       URL := ""; Payload_ := PValidateElements [agentConfig] |}.
Proof.
  destruct (dotnet_agent_success_iff "no agent" "No agent upstream: "
              "Upstream failed: " "assertion" findLicenseKey String.eqb
              (fun _ _ => false) (fun _ _ => false) installedUpstream
              [otherConfig; agentConfig] eq_refl eq_refl) as [H _].
  apply H. discriminate.
Defined.

End DotNetAgentMoreWitnesses.

Module CollectorMore.
Import Tasks GoStrings Fmt Collector CollectorSpec Samples MoreSamples StringFacts
  CollectorProps.

Section More.
Variable storeName : string -> nat -> string.
Variable FileExists : string -> bool.
Variable IsExecutable : FileCopyEnvelope -> bool + string.

#[local] Abbreviation StoreName := (StoreName storeName).
#[local] Abbreviation nameLoop := (nameLoop storeName).
#[local] Abbreviation processEnvelope :=
  (processEnvelope storeName FileExists IsExecutable).
#[local] Abbreviation processResult :=
  (processResult storeName FileExists IsExecutable).
#[local] Abbreviation ProcessFilesChannel :=
  (ProcessFilesChannel storeName FileExists IsExecutable).

(** The loop of attempts adds nothing, or the envelope under a counter
    raised once per failed attempt. *)
Lemma nameLoop_adds fuel : ∀ i taskId e st,
  nameLoop fuel i taskId e st = st
  ∨ ∃ e', taskFiles (nameLoop fuel i taskId e st) = taskFiles st ++ [e']
      ∧ Path e' = Path e ∧ Stream e' = Stream e
      ∧ (duplicateCount e ≤ duplicateCount e')%nat
      ∧ (duplicateCount e' + i ≤ duplicateCount e + 49)%nat
      ∧ Identifier e'
        = (if String.eqb (Identifier e) "" then taskId else Identifier e).
Proof.
  induction fuel as [|fuel IH]; intros i taskId e st; [by left |].
  cbn [Collector.nameLoop].
  destruct (Nat.ltb_spec i 50) as [Hi | Hi]; [| by left].
  destruct (negb _).
  - right. eexists. split; [reflexivity |].
    destruct (String.eqb (Identifier e) "") eqn:Eid; cbn;
      rewrite ?Eid; split_and!; try done; lia.
  - destruct (IH (i + 1)%nat taskId (IncrementDuplicateCount e) st)
      as [-> | (e' & E & Hp & Hs & Hlo & Hhi & Hid)]; [by left | right].
    exists e'. cbn in *. split_and!; try done; lia.
Qed.

Lemma processEnvelope_adds taskId st e :
  processEnvelope taskId st e = st
  ∨ ∃ e', taskFiles (processEnvelope taskId st e) = taskFiles st ++ [e']
      ∧ acceptedFrom taskId e e'
      ∧ IsExecutable e = inl false
      ∧ (Stream e = None → FileExists (Path e) = true).
Proof.
  unfold Collector.processEnvelope.
  destruct (bool_decide (Stream e = None) && negb (FileExists (Path e)))
    eqn:Hmissing; [by left |].
  destruct (IsExecutable e) as [[|] | err]; [by left | | by left].
  destruct (_ && mapContains _ _); [by left |].
  destruct (nameLoop_adds 50 1 taskId e st)
    as [-> | (e' & E & Hp & Hs & Hlo & Hhi & Hid)]; [by left | right].
  exists e'. unfold acceptedFrom. split_and!; try done; try lia.
  intros Hnone. apply andb_false_iff in Hmissing as [H | H].
  - by apply bool_decide_eq_false in H.
  - by apply negb_false_iff in H.
Qed.

(** What one result of the channel adds to the list. *)
Lemma processResult_adds r : ∀ st,
  ∃ added, taskFiles (processResult st r) = taskFiles st ++ added
    ∧ (length added ≤ length (FilesToCopy r))%nat
    ∧ Forall (fun e' => ∃ e, e ∈ FilesToCopy r
                ∧ acceptedFrom (TaskIdentifier r) e e'
                ∧ IsExecutable e = inl false
                ∧ (Stream e = None → FileExists (Path e) = true)) added.
Proof.
  unfold Collector.processResult.
  induction (FilesToCopy r) as [|e es IH]; intros st; cbn [List.fold_left].
  - exists []. by rewrite app_nil_r.
  - destruct (IH (processEnvelope (TaskIdentifier r) st e))
      as (added & E & Hlen & Hall).
    assert (Hall' : Forall (fun e' => ∃ e0, e0 ∈ e :: es
                ∧ acceptedFrom (TaskIdentifier r) e0 e'
                ∧ IsExecutable e0 = inl false
                ∧ (Stream e0 = None → FileExists (Path e0) = true)) added).
    { eapply Forall_impl; [exact Hall |]. intros e' (e0 & ? & ?).
      exists e0. split; [by right | done]. }
    destruct (processEnvelope_adds (TaskIdentifier r) st e)
      as [Hsame | (e' & E' & Hfrom)].
    + exists added. rewrite E, Hsame. split_and!; [done | cbn; lia | done].
    + exists (e' :: added). rewrite E, E', <- app_assoc.
      split_and!; [done | cbn; lia |].
      constructor; [| done]. exists e. split; [by left | done].
Qed.

Lemma channel_adds channel : ∀ st,
  ∃ added,
    taskFiles (List.fold_left processResult channel st) = taskFiles st ++ added
    ∧ (length added ≤ incomingCount channel)%nat
    ∧ Forall (fun e' => ∃ r e, r ∈ channel ∧ e ∈ FilesToCopy r
                ∧ acceptedFrom (TaskIdentifier r) e e'
                ∧ IsExecutable e = inl false
                ∧ (Stream e = None → FileExists (Path e) = true)) added.
Proof.
  induction channel as [|r channel IH]; intros st; cbn [List.fold_left].
  - exists []. rewrite app_nil_r. split_and!; [done | cbn; lia | done].
  - destruct (processResult_adds r st) as (added1 & E1 & Hlen1 & Hall1).
    destruct (IH (processResult st r)) as (added2 & E2 & Hlen2 & Hall2).
    exists (added1 ++ added2). rewrite E2, E1, <- app_assoc.
    split_and!; [done | |].
    + rewrite length_app. unfold incomingCount in *. cbn. lia.
    + apply Forall_app. split.
      * eapply Forall_impl; [exact Hall1 |]. intros e' (e & ? & ?).
        exists r, e. split; [by left | done].
      * eapply Forall_impl; [exact Hall2 |]. intros e' (r' & e & ? & ?).
        exists r', e. split; [by right | done].
Qed.

(** Whatever [StoreName] computes from the Path and the counter, no two
    accepted envelopes share an archive name. *)
Theorem collector_names_pairwise_distinct (channel : list FilesResult) :
  NoDup (List.map StoreName (ProcessFilesChannel channel)).
Proof. apply accepted_names_distinct. Qed.

(** Every accepted envelope is one of the incoming envelopes: it was found
    on disk or carries a Stream, it is not an executable, its Path and
    Stream are unchanged, its counter was raised 48 times at most, and its
    Identifier is the producing task's when it had none. *)
Theorem collector_accepts_only_checked (channel : list FilesResult)
    (accepted : FileCopyEnvelope) :
  accepted ∈ ProcessFilesChannel channel →
  ∃ r incoming, r ∈ channel ∧ incoming ∈ FilesToCopy r
    ∧ acceptedFrom (TaskIdentifier r) incoming accepted
    ∧ IsExecutable incoming = inl false
    ∧ (Stream incoming = None → FileExists (Path incoming) = true).
Proof.
  unfold Collector.ProcessFilesChannel.
  destruct (channel_adds channel initialState) as (added & -> & _ & Hall).
  cbn [initialState taskFiles app]. intros Hin.
  by apply (proj1 (Forall_forall _ _) Hall).
Qed.

(** The list only grows: what was accepted from the first results of the
    channel stays, in its place, whatever arrives later. *)
Theorem collector_keeps_earlier (earlier later : list FilesResult) :
  ∃ added,
    ProcessFilesChannel (earlier ++ later) = ProcessFilesChannel earlier ++ added.
Proof.
  unfold Collector.ProcessFilesChannel. rewrite fold_left_app.
  destruct (channel_adds later (List.fold_left processResult earlier initialState))
    as (added & -> & _). by exists added.
Qed.

(** At most one envelope is accepted per incoming envelope. *)
Theorem collector_accepts_at_most_incoming (channel : list FilesResult) :
  (length (ProcessFilesChannel channel) ≤ incomingCount channel)%nat.
Proof.
  unfold Collector.ProcessFilesChannel.
  destruct (channel_adds channel initialState) as (added & -> & Hlen & _).
  by cbn [initialState taskFiles app].
Qed.


End More.

Lemma collector_accepts_only_checked_witness :
  ∃ r incoming, r ∈ mixed ∧ incoming ∈ FilesToCopy r
    ∧ acceptedFrom (TaskIdentifier r) incoming
        {| Path := "/etc/nr.yml"; Stream := Some ["line"];
           Identifier := "Cmd"; duplicateCount := 1 |}
    ∧ @inl bool string false = inl false
    ∧ (Stream incoming = None → true = true).
Proof.
  apply (collector_accepts_only_checked suffixStoreName (fun _ => true)
           (fun _ => inl false) mixed).
  vm_compute. right. left.
Defined.


End CollectorMore.

Module AggregatorMore.
Import Tasks GoStrings Fmt GoUtf8 Logger Aggregator AggregatorSpec StringFacts
  GoUtf8Props Samples MoreSamples AggregatorProps.

Lemma contains_newline_cons c s :
  Contains (String c s) newline = Ascii.eqb "010" c || Contains s newline.
Proof.
  unfold newline. cbn [Contains HasPrefix].
  destruct (Ascii.eqb "010" c); [by destruct s | done].
Qed.

Lemma contains_newline_app (a b : string) :
  Contains (a +:+ b) newline = Contains a newline || Contains b newline.
Proof.
  induction a as [|c a IH]; [done |].
  by rewrite str_app_cons, !contains_newline_cons, IH, orb_assoc.
Qed.

(** A rune takes at most four bytes. *)
Lemma runeWidth_le_4 s : (runeWidth s ≤ 4)%nat.
Proof. unfold runeWidth. repeat case_match; lia. Qed.

Lemma length_truncateString prec : ∀ s,
  (String.length (truncateString prec s) ≤ 4 * prec)%nat.
Proof.
  induction prec as [|prec IH]; intros s; [cbn; lia |].
  destruct s as [|c s]; [cbn; lia |]. cbn [truncateString].
  rewrite str_length_app, length_takeBytes.
  pose proof (runeWidth_le_4 (String c s)).
  pose proof (IH (dropBytes (runeWidth (String c s)) (String c s))). lia.
Qed.

(** What a displayed result adds to its line after the identifier holds no
    newline and is at most 207 bytes long, however long the summary is. *)
Theorem summary_payload_one_line_bounded (r : Result) :
  Contains (summaryPayload r) newline = false
  ∧ (String.length (summaryPayload r) ≤ 207)%nat.
Proof.
  unfold summaryPayload. case_bool_decide; [| split; [done | cbn; lia]].
  set (flat := replaceNewlines (Summary r)).
  destruct (truncateString_prefix 50 flat) as [rest Hrest].
  pose proof (replaceNewlines_flat (Summary r)) as Hflat. fold flat in Hflat.
  rewrite Hrest, contains_newline_app in Hflat.
  apply orb_false_iff in Hflat as [Hcut _]. split.
  - rewrite !contains_newline_app, Hcut. by destruct (50 <? _)%nat.
  - rewrite !str_length_app. pose proof (length_truncateString 50 flat) as Hlen.
    revert Hlen. generalize (truncateString 50 flat). intros cut Hlen.
    destruct (50 <? _)%nat; cbn [String.length]; lia.
Qed.

Section More.
Variable StatusToString : Status -> string.
Variable filteredResult : string -> bool.
Variable ColorString : Color -> string -> string.
Variable filteredToString : list nat -> string.
Variable flags : Flags.

#[local] Abbreviation loop := (loop StatusToString filteredResult ColorString).
#[local] Abbreviation WriteLineResults :=
  (WriteLineResults StatusToString filteredResult ColorString filteredToString
     flags).
#[local] Abbreviation hidden := (hidden StatusToString filteredResult).
#[local] Abbreviation hiddenCount := (hiddenCount StatusToString filteredResult).
#[local] Abbreviation hiddenOfStatus :=
  (hiddenOfStatus StatusToString filteredResult).
#[local] Abbreviation breakdown := (breakdown StatusToString filteredResult).
#[local] Abbreviation resultLines :=
  (resultLines StatusToString filteredResult ColorString).

(** The counts by status of the closing message add up to its count. *)
Theorem breakdown_adds_up (results : list TaskResult) :
  sum_list (breakdown results) = hiddenCount results.
Proof.
  unfold AggregatorSpec.breakdown. cbn [List.map sum_list sum_list_with].
  induction results as [|r rs IH]; [done |].
  rewrite !(hiddenOfStatus_cons StatusToString filteredResult).
  unfold AggregatorSpec.hiddenCount, id in *. cbn [List.filter].
  destruct (AggregatorSpec.hidden StatusToString filteredResult r);
    cbn [andb length]; [| lia].
  destruct (Status_ (Result_ r)); repeat case_bool_decide; try done; lia.
Qed.

Lemma resultLine_is_line (r : TaskResult) :
  isResultLine (resultLine StatusToString ColorString r) = true.
Proof. unfold resultLine. by destruct (WasOverride r). Qed.

Lemma count_resultLines (results : list TaskResult) :
  (length (List.filter isResultLine (resultLines results)) + hiddenCount results
   = length results)%nat.
Proof.
  unfold AggregatorSpec.resultLines, AggregatorSpec.hiddenCount.
  induction results as [|r rs IH]; [done |].
  cbn [List.flat_map List.filter]. rewrite List.filter_app, length_app.
  destruct (AggregatorSpec.hidden StatusToString filteredResult r).
  - cbn [List.filter isResultLine doneWith length]. lia.
  - cbn [List.filter]. rewrite resultLine_is_line.
    cbn [List.filter isResultLine doneWith length]. lia.
Qed.

Lemma afterLoop_no_result_line (st : LoopState) :
  List.filter isResultLine (afterLoop ColorString filteredToString flags st) = [].
Proof.
  unfold afterLoop.
  destruct (0 <? filteredCounter st)%nat, (0 <? size (hsmPayload st))%nat,
    (0 <? length (outputResults st))%nat,
    (AutoAttach flags || negb (String.eqb (APIKey flags) "")); reflexivity.
Qed.

(** Under the payload contract, every result is accounted for once: it has
    its line, or it is counted as hidden. *)
Theorem every_result_shown_or_counted (results : list TaskResult) :
  Forall payloadContract results →
  ∃ log, WriteLineResults results = Returned log results
    ∧ (length (List.filter isResultLine log) + hiddenCount results
       = length results)%nat.
Proof.
  intros Hc. unfold Aggregator.WriteLineResults.
  rewrite (loop_spec StatusToString filteredResult ColorString _ _ Hc).
  cbn [initialLoopState filteredCounter filtered outputResults hsmResult
       hsmPayload logged app].
  eexists. split; [reflexivity |].
  rewrite List.filter_app, length_app, afterLoop_no_result_line.
  rewrite <- (count_resultLines results). cbn [length]. lia.
Qed.

Lemma loop_app (before rest : list TaskResult) : ∀ st st',
  loop st before = inl st' → loop st (before ++ rest) = loop st' rest.
Proof.
  induction before as [|r before IH]; intros st st' H; cbn [app Aggregator.loop] in *.
  - by injection H as ->.
  - destruct (loopBody _ _ _ st r); [by apply IH | done].
Qed.

(** A displayed result of Base/Config/ValidateHSM whose payload is neither
    nil nor a [map[string]bool] ends the function in a panic: the lines of
    the results before it are written, no list is returned. *)
Theorem hsm_payload_of_other_type_panics (before after : list TaskResult)
    (bad : TaskResult) :
  Forall payloadContract before →
  hidden bad = false →
  TaskId bad = "Base/Config/ValidateHSM" →
  Payload_ (Result_ bad) ≠ PNil →
  (∀ m, Payload_ (Result_ bad) ≠ PMapStringBool m) →
  WriteLineResults (before ++ bad :: after) = Panicked (resultLines before).
Proof.
  intros Hc Hshown Hid Hnil Hmap. unfold Aggregator.WriteLineResults.
  rewrite (loop_app before (bad :: after) _ _
             (loop_spec StatusToString filteredResult ColorString _ _ Hc)).
  cbn [Aggregator.loop]. unfold loopBody.
  unfold AggregatorSpec.hidden in Hshown. apply negb_false_iff in Hshown.
  rewrite Hshown, Hid. cbn [String.eqb Ascii.eqb Bool.eqb andb].
  destruct (Payload_ (Result_ bad)) eqn:Ep; try done.
  by destruct (Hmap m).
Qed.

End More.

Lemma every_result_shown_or_counted_witness :
  ∃ log, WriteLineResults statusName showIssues plainColor showCounts loud
           fourResults = Returned log fourResults
    ∧ (length (List.filter isResultLine log)
       + hiddenCount statusName showIssues fourResults
       = length fourResults)%nat.
Proof.
  apply (every_result_shown_or_counted statusName showIssues plainColor
           showCounts loud fourResults).
  repeat constructor; intros E; discriminate E.
Defined.

Lemma hsm_payload_of_other_type_panics_witness :
  WriteLineResults statusName showIssues plainColor showCounts loud
    ([resultOf "Base/Env/HostInfo" Info "host"] ++ badHsm :: [])
  = Panicked (resultLines statusName showIssues plainColor
                [resultOf "Base/Env/HostInfo" Info "host"]).
Proof.
  apply (hsm_payload_of_other_type_panics statusName showIssues plainColor
           showCounts loud [resultOf "Base/Env/HostInfo" Info "host"] [] badHsm).
  - repeat constructor; intros E; discriminate E.
  - reflexivity.
  - reflexivity.
  - discriminate.
  - discriminate.
Defined.

End AggregatorMore.

Module SummaryMore.
Import Tasks GoStrings Fmt Logger Aggregator AggregatorSpec Summary Samples
  MoreSamples AggregatorProps.

Section More.
Variable IsFailure : Result -> bool.
Variable StatusToString : Status -> string.
Variable filteredResult : string -> bool.
Variable ColorString : Color -> string -> string.
Variable filteredToString : list nat -> string.

#[local] Abbreviation WriteSummary :=
  (WriteSummary IsFailure StatusToString filteredResult ColorString
     filteredToString).
#[local] Abbreviation issueLines := (issueLines StatusToString ColorString).
#[local] Abbreviation issueStep :=
  (issueStep StatusToString filteredResult ColorString).
#[local] Abbreviation hidden := (hidden StatusToString filteredResult).
#[local] Abbreviation hiddenCount := (hiddenCount StatusToString filteredResult).
#[local] Abbreviation breakdown := (breakdown StatusToString filteredResult).
#[local] Abbreviation tally := (tally StatusToString filteredResult).

Lemma fold_issueStep (failures : list TaskResult) : ∀ c,
  List.fold_left issueStep failures c =
    {| shownLines := shownLines c
         ++ List.flat_map issueLines
              (List.filter (fun r => negb (hidden r)) failures);
       notShown := notShown c + hiddenCount failures;
       notShownByStatus := tally (notShownByStatus c) failures |}.
Proof.
  induction failures as [|r rs IH]; intros c.
  - destruct c. cbn. by rewrite app_nil_r, Nat.add_0_r.
  - cbn [List.fold_left]. rewrite IH, (tally_cons StatusToString filteredResult).
    unfold Summary.issueStep, AggregatorSpec.hiddenCount, AggregatorSpec.hidden.
    cbn [List.filter].
    destruct (filteredResult _);
      cbn [negb shownLines notShown notShownByStatus List.flat_map length].
    + by rewrite <- app_assoc.
    + f_equal. lia.
Qed.

Lemma summary_structure_lines (data : list TaskResult) :
  data ≠ [] →
  ∃ header,
    WriteSummary data =
      [header]
      ++ List.flat_map issueLines
           (List.filter (fun r => negb (hidden r))
              (List.filter (fun r => IsFailure (Result_ r)) data))
      ++ match hiddenCount (List.filter (fun r => IsFailure (Result_ r)) data) with
         | O => []
         | S _ =>
             [Info [ColorString Gray
                      (newline
                       +:+ Itoa (hiddenCount
                                   (List.filter (fun r => IsFailure (Result_ r)) data))
                       +:+ " issues not shown: "
                       +:+ filteredToString
                             (breakdown
                                (List.filter (fun r => IsFailure (Result_ r)) data))
                       +:+ newline
                       +:+ "(Use " +:+ dquote +:+ "-filter all" +:+ dquote
                       +:+ " to see all issues)")]]
         end.
Proof.
  intros Hne. unfold Summary.WriteSummary.
  destruct data as [|r data]; [done |]. cbn [length Nat.ltb Nat.leb].
  rewrite fold_issueStep.
  cbn [shownLines notShown notShownByStatus app Nat.add].
  rewrite (tally_breakdown StatusToString filteredResult).
  eexists. f_equal. f_equal.
  by destruct (hiddenCount (List.filter _ (r :: data))).
Qed.


(** Nothing is written for an empty list of results, and only then; when
    no result is a failure, the one line written says that no issues were
    found. *)
Theorem summary_without_issues (data : list TaskResult) :
  (WriteSummary data = [] ↔ data = [])
  ∧ (data ≠ [] → Forall (fun r => IsFailure (Result_ r) = false) data →
       WriteSummary data
       = [Info [ColorString White (newline +:+ "No Issues Found" +:+ newline)]]).
Proof.
  split.
  - unfold Summary.WriteSummary. destruct data; [done |].
    cbn [length Nat.ltb Nat.leb]. split; done.
  - intros Hne Hall. unfold Summary.WriteSummary.
    destruct data as [|r data]; [done |]. cbn [length Nat.ltb Nat.leb].
    assert (List.filter (fun r => IsFailure (Result_ r)) (r :: data) = []) as ->.
    { clear Hne. induction Hall as [|x l Hx _ IH]; [done |].
      cbn [List.filter]. by rewrite Hx. }
    reflexivity.
Qed.

(** The summary of a failure that the filter lets through is written
    whole, on a line of its own. *)
Theorem summary_shows_whole_summary (data : list TaskResult) (r : TaskResult) :
  r ∈ data →
  IsFailure (Result_ r) = true →
  filteredResult (StatusToString (Status_ (Result_ r))) = true →
  Info [Summary (Result_ r)] ∈ WriteSummary data.
Proof.
  intros Hin Hfail Hshown.
  assert (Hne : data ≠ []) by (intros ->; by apply elem_of_nil in Hin).
  destruct (summary_structure_lines data Hne) as (header & ->).
  apply elem_of_app. right. apply elem_of_app. left.
  apply list_elem_of_In, in_flat_map. exists r. split.
  - apply filter_In. split.
    + apply filter_In. split; [by apply list_elem_of_In | done].
    + unfold AggregatorSpec.hidden. by rewrite Hshown.
  - unfold Summary.issueLines. right. by left.
Qed.

End More.

End SummaryMore.

Module SummaryMoreWitnesses.
Import Tasks GoStrings Fmt Logger Aggregator AggregatorSpec Summary Samples
  MoreSamples SummaryMore.


Lemma summary_shows_whole_summary_witness :
  Info ["No log files were found in any of the 17 locations that were searched"]
  ∈ WriteSummary isIssue statusName showIssues plainColor showCounts
      [longWarning].
Proof.
  apply (summary_shows_whole_summary isIssue statusName showIssues plainColor
           showCounts [longWarning] longWarning).
  - by left.
  - reflexivity.
  - reflexivity.
Defined.

End SummaryMoreWitnesses.

Module IncludeFlagMore.
Import Tasks GoStrings Fmt Logger IncludeFlag IncludeFlagSpec Samples MoreSamples
  IncludeFlagProps.

Section More.
Variable WalkSizeFunction : FileInfo -> Z.
Variable WalkCopyFunction :
  string -> FileInfo -> option string -> Zip -> Zip * option string.
Variable ColorString : Color -> string -> string.
Variable fs : FileSystem.

#[local] Abbreviation GetTotalSize := (GetTotalSize WalkSizeFunction fs).
#[local] Abbreviation regularBytes := (regularBytes WalkSizeFunction).

(** A walk that meets no error goes on with the entries that follow. *)
Lemma Walk_app {S : Type} (fn : S -> WalkEntry -> S * option string)
    (before rest : list WalkEntry) : ∀ st st',
  Walk fn before st = (st', None) →
  Walk fn (before ++ rest) st = Walk fn rest st'.
Proof.
  induction before as [|e before IH]; intros st st' H; cbn [app Walk] in *.
  - by injection H as ->.
  - destruct (fn st e) as [st1 [err |]]; [done | by apply IH].
Qed.

(** When the walk meets no error and the sum fits an [int64], the size of
    an include path is the sum of the sizes of its regular files;
    directories do not count. *)
Theorem include_size_is_sum (pathToDir : string) :
  Forall (fun e => walkErr e = None
                   ∧ (0 ≤ WalkSizeFunction (walkInfo e))%Z) (Entries fs pathToDir) →
  (regularBytes (Entries fs pathToDir) < 2 ^ 63)%Z →
  GetTotalSize pathToDir = (regularBytes (Entries fs pathToDir), None).
Proof. apply GetTotalSize_sum. Qed.

(** The walk stops at the first entry that comes with an error: the size
    is the sum of the regular files before it, whatever follows, and the
    error is returned with it. *)
Theorem include_size_stops_at_error (pathToDir : string)
    (before after : list WalkEntry) (bad : WalkEntry) (err : string) :
  Entries fs pathToDir = before ++ bad :: after →
  Forall (fun e => walkErr e = None
                   ∧ (0 ≤ WalkSizeFunction (walkInfo e))%Z) before →
  (regularBytes before < 2 ^ 63)%Z →
  walkErr bad = Some err →
  GetTotalSize pathToDir = (regularBytes before, Some err).
Proof.
  intros Hentries Hbefore Hsum Hbad.
  pose proof (GetTotalSize_sum WalkSizeFunction
                {| Stat := Stat fs; Entries := fun _ => before |} pathToDir
                Hbefore Hsum) as Hwalk.
  unfold IncludeFlag.GetTotalSize in *. cbn [Entries] in Hwalk.
  rewrite Hentries, (Walk_app _ _ _ _ _ Hwalk). cbn [Walk]. by rewrite Hbad.
Qed.


End More.

Lemma include_size_is_sum_witness :
  GetTotalSize Size bigInclude "inc" = (5000000000%Z, None).
Proof.
  apply (include_size_is_sum Size bigInclude "inc").
  - repeat constructor; cbn; lia.
  - vm_compute. reflexivity.
Defined.

Lemma include_size_stops_at_error_witness :
  GetTotalSize Size brokenInclude "inc" = (10%Z, Some "permission denied").
Proof.
  apply (include_size_stops_at_error Size brokenInclude "inc"
           [{| walkPath := "inc/a.bin";
               walkInfo := {| IsDir := false; Size := 10 |}; walkErr := None |}]
           [{| walkPath := "inc/c.bin";
               walkInfo := {| IsDir := false; Size := 5000000000 |};
               walkErr := None |}]
           {| walkPath := "inc/b.bin";
              walkInfo := {| IsDir := false; Size := 20 |};
              walkErr := Some "permission denied" |}).
  - reflexivity.
  - repeat constructor; cbn; lia.
  - vm_compute. reflexivity.
  - reflexivity.
Defined.


End IncludeFlagMore.

Module ScriptOutputMore.
Import Tasks GoStrings Fmt Collector ScriptOutput MoreSamples.

Section More.
Variable osStat : string -> option string.
Variable osOpen : string -> option string.
Variable FileInfoHeader : string -> option string.
Variable CreateHeader : string -> option string.
Variable ioCopy : string -> option string.
Variable ToSlash : string -> string.

#[local] Abbreviation entryName := (entryName ToSlash).
#[local] Abbreviation copyOne :=
  (copyOne osStat osOpen FileInfoHeader CreateHeader ioCopy ToSlash).
#[local] Abbreviation copyAll :=
  (copyAll osStat osOpen FileInfoHeader CreateHeader ioCopy ToSlash).
#[local] Abbreviation CopyScriptOutputsToZip :=
  (CopyScriptOutputsToZip osStat osOpen FileInfoHeader CreateHeader ioCopy
     ToSlash).
#[local] Abbreviation fileError :=
  (fileError osStat osOpen FileInfoHeader CreateHeader ioCopy ToSlash).
#[local] Abbreviation entryCreated :=
  (entryCreated osStat osOpen FileInfoHeader CreateHeader ToSlash).

Lemma copyOne_ok a filename :
  fileError filename = None →
  copyOne a filename =
    ({| entries := entries a ++ [entryName filename];
        fileListed := fileListed a ++ [scriptEnvelope filename] |}, None).
Proof.
  unfold MoreSamples.fileError, ScriptOutput.copyOne.
  destruct (osStat filename), (osOpen filename), (FileInfoHeader filename),
    (CreateHeader (entryName filename)); try done.
  by intros ->.
Qed.

Lemma copyOne_fails a filename err :
  fileError filename = Some err →
  copyOne a filename =
    ({| entries := entries a
          ++ (if entryCreated filename then [entryName filename] else []);
        fileListed := fileListed a |}, Some err).
Proof.
  unfold MoreSamples.fileError, MoreSamples.entryCreated, ScriptOutput.copyOne.
  destruct a as [es fl].
  destruct (osStat filename), (osOpen filename), (FileInfoHeader filename),
    (CreateHeader (entryName filename)); cbn [entries fileListed];
    try (intros [= ->]; by rewrite app_nil_r).
  by intros ->.
Qed.

Lemma copyAll_ok (files : list string) : ∀ a,
  Forall (fun f => fileError f = None) files →
  copyAll a files =
    ({| entries := entries a ++ List.map entryName files;
        fileListed := fileListed a ++ List.map scriptEnvelope files |}, None).
Proof.
  induction files as [|f files IH]; intros a Hall.
  - destruct a. cbn. by rewrite !app_nil_r.
  - apply Forall_cons in Hall as [Hf Hall].
    cbn [ScriptOutput.copyAll]. rewrite (copyOne_ok a f Hf), (IH _ Hall).
    cbn [entries fileListed List.map]. by rewrite <- !app_assoc.
Qed.

(** When every call succeeds, the output of the script and its additional
    files are written to the zip file in that order, each under
    [nrdiag-output/ScriptOutput/], and each is added to the file list. *)
Theorem script_outputs_all_copied (scriptData : ScriptData) (zipfile : Archive) :
  Forall (fun f => fileError f = None)
         (OutputPath scriptData :: AddtlFiles scriptData) →
  CopyScriptOutputsToZip scriptData zipfile =
    ({| entries := entries zipfile
          ++ List.map entryName (OutputPath scriptData :: AddtlFiles scriptData);
        fileListed := fileListed zipfile
          ++ List.map scriptEnvelope
               (OutputPath scriptData :: AddtlFiles scriptData) |}, None).
Proof. apply copyAll_ok. Qed.

(** The first file with a failing call ends the copy with the error of
    that call.  The files before it stay written and listed, the files
    after it are not touched; the failing file is never listed, yet its
    entry is in the zip file when the failing call is the copy of its
    content. *)
Theorem script_outputs_stop_at_error (scriptData : ScriptData) (zipfile : Archive)
    (before after : list string) (bad err : string) :
  OutputPath scriptData :: AddtlFiles scriptData = before ++ bad :: after →
  Forall (fun f => fileError f = None) before →
  fileError bad = Some err →
  CopyScriptOutputsToZip scriptData zipfile =
    ({| entries := entries zipfile ++ List.map entryName before
          ++ (if entryCreated bad then [entryName bad] else []);
        fileListed := fileListed zipfile ++ List.map scriptEnvelope before |},
     Some err).
Proof.
  intros Hfiles Hbefore Hbad. unfold ScriptOutput.CopyScriptOutputsToZip.
  rewrite Hfiles. clear Hfiles. revert zipfile.
  induction Hbefore as [|f before Hf _ IH]; intros zipfile.
  - cbn [app ScriptOutput.copyAll List.map].
    rewrite (copyOne_fails zipfile bad err Hbad). by rewrite app_nil_r.
  - cbn [app ScriptOutput.copyAll]. rewrite (copyOne_ok zipfile f Hf), IH.
    cbn [entries fileListed List.map]. by rewrite <- !app_assoc.
Qed.

End More.

Lemma script_outputs_all_copied_witness :
  CopyScriptOutputsToZip noError noError noError noError noError (fun s => s)
    scriptRun {| entries := ["nrdiag-output.json"]; fileListed := [] |}
  = ({| entries := ["nrdiag-output.json";
                    "nrdiag-output/ScriptOutput/run.out";
                    "nrdiag-output/ScriptOutput/extra.csv";
                    "nrdiag-output/ScriptOutput/later.txt"];
        fileListed := [scriptEnvelope "run.out"; scriptEnvelope "extra.csv";
                       scriptEnvelope "later.txt"] |}, None).
Proof.
  apply (script_outputs_all_copied noError noError noError noError noError
           (fun s => s) scriptRun
           {| entries := ["nrdiag-output.json"]; fileListed := [] |}).
  repeat constructor.
Defined.

Lemma script_outputs_stop_at_error_witness :
  CopyScriptOutputsToZip noError noError noError noError copyFailsOnExtra
    (fun s => s) scriptRun {| entries := ["nrdiag-output.json"]; fileListed := [] |}
  = ({| entries := ["nrdiag-output.json";
                    "nrdiag-output/ScriptOutput/run.out";
                    "nrdiag-output/ScriptOutput/extra.csv"];
        fileListed := [scriptEnvelope "run.out"] |}, Some "short write").
Proof.
  apply (script_outputs_stop_at_error noError noError noError noError
           copyFailsOnExtra (fun s => s) scriptRun
           {| entries := ["nrdiag-output.json"]; fileListed := [] |}
           ["run.out"] ["later.txt"] "extra.csv" "short write").
  - reflexivity.
  - repeat constructor.
  - reflexivity.
Defined.

End ScriptOutputMore.

Module K8sMore.
Import Tasks GoStrings Fmt Collector K8s MoreSamples.

Section More.
Variable kubectlBin : string.
Variable cmdExec : string -> list string -> string + string.
Variable StreamBlob : string -> list string.

#[local] Abbreviation podLogsExecute := (podLogsExecute kubectlBin cmdExec StreamBlob).
#[local] Abbreviation podLogsRunCommand := (podLogsRunCommand kubectlBin cmdExec).
#[local] Abbreviation deploymentExecute :=
  (deploymentExecute kubectlBin cmdExec StreamBlob).

(** A first attempt that finds its name free accepts the envelope. *)
Lemma nameLoop_first_free (storeName : string -> nat -> string) (fuel i : nat)
    (taskId : string) (e : FileCopyEnvelope) (st : CollectorState) :
  (i < 50)%nat → StoreName storeName e ∉ fileList st →
  nameLoop storeName (S fuel) i taskId e st =
    {| fileList := {[StoreName storeName e]} ∪ fileList st;
       pathList := {[Path e]} ∪ pathList st;
       taskFiles := taskFiles st
         ++ [if String.eqb (Identifier e) "" then setIdentifier taskId e else e] |}.
Proof.
  intros Hi Hfree. cbn [nameLoop]. unfold mapContains.
  destruct (Nat.ltb_spec i 50); [| lia].
  by rewrite bool_decide_eq_false_2.
Qed.


(** The deployment task reads the option [namespace] only: an absent
    option and an empty one run the same command, without the [-n] flag; a
    namespace that is set follows [-n] in the command; the option
    [k8sNamespace] changes nothing. *)
Theorem deployment_namespace_option (options : gmap string string) :
  (optionAt options "namespace" = "" →
     deploymentExecute options = deploymentExecute ∅
     ∧ "-n" ∉ deploymentCommand (optionAt options "namespace"))
  ∧ (optionAt options "namespace" ≠ "" →
       deploymentCommand (optionAt options "namespace")
       = ["describe"; "deployment"; "-n"; optionAt options "namespace"; "-l";
          "app.kubernetes.io/name=newrelic-infrastructure"])
  ∧ (∀ value, deploymentExecute (<["k8sNamespace" := value]> options)
              = deploymentExecute options).
Proof.
  split_and!.
  - intros E. unfold K8s.deploymentExecute. rewrite E. split; [done |].
    unfold deploymentCommand. cbn [String.eqb]. intros H.
    repeat (apply elem_of_cons in H as [H | H]; [discriminate H |]).
    by apply elem_of_nil in H.
  - intros Hne. unfold deploymentCommand.
    by destruct (String.eqb_spec (optionAt options "namespace") "").
  - intros value. unfold K8s.deploymentExecute, optionAt.
    by rewrite lookup_insert_ne.
Qed.

End More.


Lemma deployment_namespace_option_witness :
  deploymentCommand (optionAt {["namespace" := "newrelic"]} "namespace")
  = ["describe"; "deployment"; "-n"; "newrelic"; "-l";
     "app.kubernetes.io/name=newrelic-infrastructure"].
Proof.
  destruct (deployment_namespace_option "kubectl" kubectlLogs oneLine
              {["namespace" := "newrelic"]}) as (_ & Hset & _).
  apply Hset. discriminate.
Defined.

End K8sMore.
